(** * gostar: the Datastar attribute catalog, its validator and its tests

    A shallow embedding of [cfg/extensions_datastar.go] and of the table of
    [tests/datastar_test.go].  Go strings are byte strings ([string]), a
    pointer is an [option], a panic is an explicit [outcome], and the network
    that [doc] talks to is a state threaded through every call. *)

From Stdlib Require Import ZArith Lia.
From stdpp Require Import base option list strings pretty gmap sorting.

(** ** Go runtime: panics *)

Module go.

(** The run-time errors the modelled code can raise. *)
Inductive runtime_error :=
| nil_pointer_dereference
| slice_bounds_out_of_range (hi len : nat).

(** The value a panic carries: [panic(s)] with a string, [panic(err)] with an
    error, or a run-time error raised by the language itself. *)
Inductive panic_value :=
| PanicString (msg : string)
| PanicError (msg : string)
| PanicRuntime (e : runtime_error).

Inductive outcome (A : Type) :=
| Returns (a : A)
| Panics (v : panic_value).
Arguments Returns {A} a.
Arguments Panics {A} v.

Definition bind {A B} (o : outcome A) (k : A -> outcome B) : outcome B :=
  match o with
  | Returns a => k a
  | Panics v => Panics v
  end.

(** A panic raised by an explicit [panic(...)] call of the program. *)
Definition explicit (v : panic_value) : Prop :=
  match v with
  | PanicString _ | PanicError _ => True
  | PanicRuntime _ => False
  end.

Definition panics {A} (o : outcome A) : Prop := exists v, o = Panics v.

(** [s[lo:hi]] on a string: bytes [lo..hi), a run-time panic when [hi]
    exceeds the length. *)
Definition slice (s : string) (lo hi : nat) : outcome string :=
  if decide (hi <= String.length s)%nat
  then Returns (String.substring lo (hi - lo) s)
  else Panics (PanicRuntime (slice_bounds_out_of_range hi (String.length s))).

(** [p.f] through a pointer: a run-time panic on nil. *)
Definition deref {A B} (p : option A) (f : A -> B) : outcome B :=
  match p with
  | Some a => Returns (f a)
  | None => Panics (PanicRuntime nil_pointer_dereference)
  end.

Definition nl : string := String (Ascii.ascii_of_nat 10) EmptyString.
Definition tab : string := String (Ascii.ascii_of_nat 9) EmptyString.
Definition dq : string := String (Ascii.ascii_of_nat 34) EmptyString.

End go.

Import go.

#[global] Instance outcome_bind : MBind outcome := fun A B k o => go.bind o k.
#[global] Instance outcome_ret : MRet outcome := @Returns.

(** ** The generated protobuf messages the catalog is made of *)

Module pb.

(** Modelled from the spec: the value kinds of section 3 (bool, string,
    duration in milliseconds, duration in seconds).  The constructor functions
    [AttributeTypeBool], [AttributeTypeString], [AttributeTypeDurationMs] and
    [AttributeTypeDurationSec] of package cfg are not part of the sources at
    hand; each call is kept as the value it denotes. *)
Inductive Attribute_Type_Base :=
| AttributeTypeBool
| AttributeTypeString
| AttributeTypeDurationMs
| AttributeTypeDurationSec.

(** Modelled from the spec: [AttributeTypeCustomModifier(name, flag, base)], the
    type descriptor of a modifier; the function is not part of the sources at
    hand and is kept as the record of its three arguments. *)
Record Attribute_Type_Modifier := AttributeTypeCustomModifier {
  mt_name : string;
  mt_flag : bool;
  mt_base : Attribute_Type_Base;
}.

Module Attribute_Custom_Modifier.
Record t := mk {
  Name : string;
  Description : string;
  Type_ : option Attribute_Type_Modifier;
  Prefix : string;
  Suffix : string;
}.
End Attribute_Custom_Modifier.

(** Modelled from the spec: [AttributeTypeCustom(hasSubKey, base, mods...)], the
    type of an attribute: whether it accepts an inline sub-key, its base value
    type, and the permitted modifiers, which are pointers into the registry. *)
Record Attribute_Type := AttributeTypeCustom {
  at_customizable : bool;
  at_base : Attribute_Type_Base;
  at_modifiers : list (option Attribute_Custom_Modifier.t);
}.

Module Attribute.
Record t (D : Type) := mk {
  Name : string;
  Key : string;
  Description : D;
  Type_ : option Attribute_Type;
}.
Arguments mk {D}.
Arguments Name {D}.
Arguments Key {D}.
Arguments Description {D}.
Arguments Type_ {D}.
End Attribute.

End pb.

(** ** Package cfg: the modifier registry and its validator *)

Module registry.
Import pb pb.Attribute_Custom_Modifier.

Abbreviation Modifier := pb.Attribute_Custom_Modifier.t.

Record attributeCustomModifiers := {
  Capture : option Modifier;
  Case : option Modifier;
  DebounceMs : option Modifier;
  DebounceMsLeading : option Modifier;
  DebounceMsNoTrailing : option Modifier;
  DebounceSec : option Modifier;
  DebounceSecLeading : option Modifier;
  DebounceSecNoTrailing : option Modifier;
  DelayMs : option Modifier;
  DelaySec : option Modifier;
  DurationMs : option Modifier;
  DurationMsLeading : option Modifier;
  DurationSec : option Modifier;
  DurationSecLeading : option Modifier;
  Full : option Modifier;
  IfMissing : option Modifier;
  Half : option Modifier;
  Once : option Modifier;
  Outside : option Modifier;
  Passive : option Modifier;
  Prevent : option Modifier;
  Self : option Modifier;
  Stop : option Modifier;
  Terse : option Modifier;
  ThrottleMs : option Modifier;
  ThrottleMsNoLeading : option Modifier;
  ThrottleMsTrailing : option Modifier;
  ThrotlleSec : option Modifier;
  ThrotlleSecNoLeading : option Modifier;
  ThrotlleSecTrailing : option Modifier;
  ViewTransition : option Modifier;
  Window : option Modifier;
}.

(** What [reflect.ValueOf(a)] exposes: the fields in declaration order, each
    with its name ([typ.Field(i).Name]) and its value ([value.Field(i)]). *)
Definition fields (a : attributeCustomModifiers) : list (string * option Modifier) :=
  [ ("Capture", Capture a); ("Case", Case a); ("DebounceMs", DebounceMs a);
    ("DebounceMsLeading", DebounceMsLeading a);
    ("DebounceMsNoTrailing", DebounceMsNoTrailing a);
    ("DebounceSec", DebounceSec a); ("DebounceSecLeading", DebounceSecLeading a);
    ("DebounceSecNoTrailing", DebounceSecNoTrailing a);
    ("DelayMs", DelayMs a); ("DelaySec", DelaySec a);
    ("DurationMs", DurationMs a); ("DurationMsLeading", DurationMsLeading a);
    ("DurationSec", DurationSec a); ("DurationSecLeading", DurationSecLeading a);
    ("Full", Full a); ("IfMissing", IfMissing a); ("Half", Half a);
    ("Once", Once a); ("Outside", Outside a); ("Passive", Passive a);
    ("Prevent", Prevent a); ("Self", Self a); ("Stop", Stop a);
    ("Terse", Terse a); ("ThrottleMs", ThrottleMs a);
    ("ThrottleMsNoLeading", ThrottleMsNoLeading a);
    ("ThrottleMsTrailing", ThrottleMsTrailing a);
    ("ThrotlleSec", ThrotlleSec a);
    ("ThrotlleSecNoLeading", ThrotlleSecNoLeading a);
    ("ThrotlleSecTrailing", ThrotlleSecTrailing a);
    ("ViewTransition", ViewTransition a); ("Window", Window a) ].

(** The loop of [validate]: [for i := 0; i < value.NumField(); i++], panicking
    at the first nil field. *)
Fixpoint validate_loop (fs : list (string * option Modifier)) : outcome unit :=
  match fs with
  | [] => Returns tt
  | (fieldName, v) :: rest =>
      match v with
      | None => Panics (PanicString ("Modifier " +:+ fieldName +:+ " is nil"))
      | Some _ => validate_loop rest
      end
  end.

Definition validate (a : attributeCustomModifiers) : outcome attributeCustomModifiers :=
  _ ← validate_loop (fields a); Returns a.

(** The registry literal of the source, before [.validate()] is applied to
    it.  A field the source leaves out ([Suffix] of the modifiers that take no
    unit) has Go's zero value, the empty string. *)
Definition datastarModifiers_literal : attributeCustomModifiers := {|
  Capture := Some {|
    Name := "Capture";
    Description := "Use capture event listener. Only works with built-in events.";
    Type_ := Some (AttributeTypeCustomModifier "capture" false AttributeTypeBool);
    Prefix := "capture";
    Suffix := "" |};
  Case := Some {|
    Name := "Case";
    Description := "Converts the casing of the signal name." +:+ nl +:+ tab +:+ "- 'camel' – Camel case: 'mySignal' (default)" +:+ nl +:+ tab +:+ "- 'kebab' – Kebab case: 'my-signal'" +:+ nl +:+ tab +:+ "- 'snake' – Snake case: 'my_signal'" +:+ nl +:+ tab +:+ "- 'pascal' – Pascal case: 'MySignal'";
    Type_ := Some (AttributeTypeCustomModifier "case" false AttributeTypeString);
    Prefix := "case.";
    Suffix := "" |};
  DebounceMs := Some {|
    Name := "DebounceMs";
    Description := "Debounces the event handler";
    Type_ := Some (AttributeTypeCustomModifier "debounce" false AttributeTypeDurationMs);
    Prefix := "debounce.";
    Suffix := "ms" |};
  DebounceMsLeading := Some {|
    Name := "DebounceMsLeading";
    Description := "Debounce the event listener in milliseconds with leading edge.";
    Type_ := Some (AttributeTypeCustomModifier "debounce" false AttributeTypeDurationMs);
    Prefix := "debounce.";
    Suffix := "ms.leading" |};
  DebounceMsNoTrailing := Some {|
    Name := "DebounceMsNoTrailing";
    Description := "Debounce the event listener in milliseconds without trailing edge.";
    Type_ := Some (AttributeTypeCustomModifier "debounce" false AttributeTypeDurationMs);
    Prefix := "debounce.";
    Suffix := "ms.notrailing" |};
  DebounceSec := Some {|
    Name := "DebounceSec";
    Description := "Debounces the event handler";
    Type_ := Some (AttributeTypeCustomModifier "debounce" false AttributeTypeDurationSec);
    Prefix := "debounce.";
    Suffix := "s" |};
  DebounceSecLeading := Some {|
    Name := "DebounceSecLeading";
    Description := "Debounce the event listener in seconds with leading edge.";
    Type_ := Some (AttributeTypeCustomModifier "debounce" false AttributeTypeDurationSec);
    Prefix := "debounce.";
    Suffix := "s.leading" |};
  DebounceSecNoTrailing := Some {|
    Name := "DebounceSecNoTrailing";
    Description := "Debounce the event listener in seconds without trailing edge.";
    Type_ := Some (AttributeTypeCustomModifier "debounce" false AttributeTypeDurationSec);
    Prefix := "debounce.";
    Suffix := "s.notrailing" |};
  DelayMs := Some {|
    Name := "DelayMs";
    Description := "Delay the event listener in milliseconds.";
    Type_ := Some (AttributeTypeCustomModifier "delay" false AttributeTypeDurationMs);
    Prefix := "delay.";
    Suffix := "ms" |};
  DelaySec := Some {|
    Name := "DelaySec";
    Description := "Delay the event listener in seconds.";
    Type_ := Some (AttributeTypeCustomModifier "delay" false AttributeTypeDurationSec);
    Prefix := "delay.";
    Suffix := "s" |};
  DurationMs := Some {|
    Name := "DurationMs";
    Description := "Sets the interval duration in milliseconds.";
    Type_ := Some (AttributeTypeCustomModifier "duration" false AttributeTypeDurationMs);
    Prefix := "duration.";
    Suffix := "ms" |};
  DurationMsLeading := Some {|
    Name := "DurationMsLeading";
    Description := "Sets the interval duration in milliseconds. Execute the first interval immediately.";
    Type_ := Some (AttributeTypeCustomModifier "duration" false AttributeTypeDurationMs);
    Prefix := "duration.";
    Suffix := "ms.leading" |};
  DurationSec := Some {|
    Name := "DurationSec";
    Description := "Sets the interval duration in seconds.";
    Type_ := Some (AttributeTypeCustomModifier "duration" false AttributeTypeDurationSec);
    Prefix := "duration.";
    Suffix := "s" |};
  DurationSecLeading := Some {|
    Name := "DurationSecLeading";
    Description := "Sets the interval duration in seconds. Execute the first interval immediately.";
    Type_ := Some (AttributeTypeCustomModifier "duration" false AttributeTypeDurationSec);
    Prefix := "duration.";
    Suffix := "s.leading" |};
  Full := Some {|
    Name := "Full";
    Description := "Trigger when the full element is visible.";
    Type_ := Some (AttributeTypeCustomModifier "full" false AttributeTypeBool);
    Prefix := "full";
    Suffix := "" |};
  IfMissing := Some {|
    Name := "IfMissing";
    Description := "Only patches signals if their keys do not already exist. This is useful for setting defaults without overwriting existing values.";
    Type_ := Some (AttributeTypeCustomModifier "ifmissing" false AttributeTypeBool);
    Prefix := "ifmissing";
    Suffix := "" |};
  Half := Some {|
    Name := "Half";
    Description := "Trigger when half of the element is visible.";
    Type_ := Some (AttributeTypeCustomModifier "half" false AttributeTypeBool);
    Prefix := "half";
    Suffix := "" |};
  Once := Some {|
    Name := "Once";
    Description := "Only run the expression once. Only works with built-in events.";
    Type_ := Some (AttributeTypeCustomModifier "once" false AttributeTypeBool);
    Prefix := "once";
    Suffix := "" |};
  Outside := Some {|
    Name := "Outside";
    Description := "Triggers when the event is outside the element.";
    Type_ := Some (AttributeTypeCustomModifier "outside" false AttributeTypeBool);
    Prefix := "outside";
    Suffix := "" |};
  Passive := Some {|
    Name := "Passive";
    Description := "Do not call preventDefault on the event listener. Only works with built-in events.";
    Type_ := Some (AttributeTypeCustomModifier "passive" false AttributeTypeBool);
    Prefix := "passive";
    Suffix := "" |};
  Prevent := Some {|
    Name := "Prevent";
    Description := "Calls 'preventDefault' on the event listener.";
    Type_ := Some (AttributeTypeCustomModifier "prevent" false AttributeTypeBool);
    Prefix := "prevent";
    Suffix := "" |};
  Self := Some {|
    Name := "Self";
    Description := "Only ignore the element itself, not its descendants.";
    Type_ := Some (AttributeTypeCustomModifier "self" false AttributeTypeBool);
    Prefix := "self";
    Suffix := "" |};
  Stop := Some {|
    Name := "Stop";
    Description := "Calls 'stopPropagation' on the event listener.";
    Type_ := Some (AttributeTypeCustomModifier "stop" false AttributeTypeBool);
    Prefix := "stop";
    Suffix := "" |};
  Terse := Some {|
    Name := "Terse";
    Description := "Outputs a more compact JSON format without extra whitespace. Useful for displaying filtered data inline.";
    Type_ := Some (AttributeTypeCustomModifier "terse" false AttributeTypeBool);
    Prefix := "terse";
    Suffix := "" |};
  ThrottleMs := Some {|
    Name := "ThrottleMs";
    Description := "Throttles the event handler";
    Type_ := Some (AttributeTypeCustomModifier "throttleMs" false AttributeTypeDurationMs);
    Prefix := "throttle.";
    Suffix := "ms" |};
  ThrottleMsNoLeading := Some {|
    Name := "ThrottleMsNoLeading";
    Description := "Throttle the event listener in milliseconds without leading edge.";
    Type_ := Some (AttributeTypeCustomModifier "throttle" false AttributeTypeDurationMs);
    Prefix := "throttle.";
    Suffix := "ms.noleading" |};
  ThrottleMsTrailing := Some {|
    Name := "ThrottleMsTrailing";
    Description := "Throttle the event listener in milliseconds with trailing edge.";
    Type_ := Some (AttributeTypeCustomModifier "throttle" false AttributeTypeDurationMs);
    Prefix := "throttle.";
    Suffix := "ms.trailing" |};
  ThrotlleSec := Some {|
    Name := "ThrottleSec";
    Description := "Throttles the event listener in seconds.";
    Type_ := Some (AttributeTypeCustomModifier "throtlleSec" false AttributeTypeDurationSec);
    Prefix := "throttle.";
    Suffix := "s" |};
  ThrotlleSecNoLeading := Some {|
    Name := "ThrottleSecNoLeading";
    Description := "Throttle the event listener in seconds without leading edge.";
    Type_ := Some (AttributeTypeCustomModifier "throttle" false AttributeTypeDurationSec);
    Prefix := "throttle.";
    Suffix := "s.noleading" |};
  ThrotlleSecTrailing := Some {|
    Name := "ThrottleSecTrailing";
    Description := "Throttle the event listener in seconds with trailing edge.";
    Type_ := Some (AttributeTypeCustomModifier "throttle" false AttributeTypeDurationSec);
    Prefix := "throttle.";
    Suffix := "s.trailing" |};
  ViewTransition := Some {|
    Name := "ViewTransition";
    Description := "Wraps the expression in 'document.startViewTransition()' when the View Transition API is available.";
    Type_ := Some (AttributeTypeCustomModifier "viewtransition" false AttributeTypeBool);
    Prefix := "viewtransition";
    Suffix := "" |};
  Window := Some {|
    Name := "Window";
    Description := "Attaches the event listener to the 'window' element.";
    Type_ := Some (AttributeTypeCustomModifier "window" false AttributeTypeBool);
    Prefix := "window";
    Suffix := "" |} |}.

(** [var datastarModifiers = attributeCustomModifiers{...}.validate()] *)
Definition datastarModifiers_init : outcome attributeCustomModifiers :=
  validate datastarModifiers_literal.

End registry.

(** ** Package cfg: the documentation-link annotator and the catalog *)

Module http.
Record Response := { StatusCode : Z }.
Definition StatusOK : Z := 200%Z.
End http.

Module cfg.
Import pb registry.

Section Literal.
Import pb.Attribute.

Context {D : Type} (doc : string -> string -> D) (plain : string -> D).

(** The slice literal of [DatastarExtensions].  A [Description] is either a call
    of [doc] or a plain string; the literal is written once, over the type [D]
    of unevaluated descriptions, so that its [Name], [Key] and [Type] fields can
    be read without running any fetch. *)
Definition DatastarExtensions_literal (datastarModifiers : attributeCustomModifiers)
  : list (Attribute.t D) :=
 [
   {| Name := "DatastarAttr";
      Key := "attr";
      Description := doc
      ("Sets the value of any HTML attribute to an expression, and keeps it in sync.")
      "https://data-star.dev/reference/attributes#data-attr";
      Type_ := Some (AttributeTypeCustom true AttributeTypeString
        []) |};
   {| Name := "DatastarBind";
      Key := "bind";
      Description := doc
      ("Creates a signal (if one doesn’t already exist) and sets up two-way data binding between it and an element’s value.")
      "https://data-star.dev/reference/attributes#data-bind";
      Type_ := Some (AttributeTypeCustom true AttributeTypeString
        []) |};
   {| Name := "DatastarClass";
      Key := "datastar-class";
      Description := plain "Adds or removes a class to or from an element based on an expression.";
      Type_ := Some (AttributeTypeCustom true AttributeTypeString
        [Case datastarModifiers]) |};
   {| Name := "DatastarComputed";
      Key := "computed";
      Description := doc
      ("Creates a signal that is computed based on an expression. The computed signal is read-only, and its value is automatically updated when any signals in the expression are updated.")
      "https://data-star.dev/reference/attributes#data-computed";
      Type_ := Some (AttributeTypeCustom true AttributeTypeString
        [Case datastarModifiers]) |};
   {| Name := "DatastarEffect";
      Key := "effect";
      Description := doc
      ("Executes an expression on page load and whenever any signals in the expression change. This is useful for performing side effects, such as updating other signals, making requests to the backend, or manipulating the DOM.")
      "https://data-star.dev/reference/attributes#data-effect";
      Type_ := Some (AttributeTypeCustom false AttributeTypeString
        []) |};
   {| Name := "DatastarIgnore";
      Key := "ignore";
      Description := doc
      ("Datastar walks the entire DOM and applies plugins to each element it encounters. It's possible to tell Datastar to ignore an element and its descendants by placing a data-ignore attribute on it. This can be useful for preventing naming conflicts with third-party libraries, or when you are unable to escape user input.")
      "https://data-star.dev/reference/attributes#data-ignore";
      Type_ := Some (AttributeTypeCustom false AttributeTypeBool
        [Self datastarModifiers]) |};
   {| Name := "DatastarIgnoreMorph";
      Key := "ignore-morph";
      Description := doc
      ("Similar to the data-ignore attribute, the data-ignore-morph attribute tells the PatchElements watcher to skip processing an element and its children when morphing elements. This can be useful for preventing conflicts with third-party libraries that manipulate the DOM, or when you are unable to escape user input.")
      "https://data-star.dev/reference/attributes#data-ignore-morph";
      Type_ := Some (AttributeTypeCustom false AttributeTypeBool
        []) |};
   {| Name := "DatastarIndicator";
      Key := "indicator";
      Description := doc
      ("Creates a signal and sets its value to true while a fetch request is in flight, otherwise false. The signal can be used to show a loading indicator.")
      "https://data-star.dev/reference/attributes#data-indicator";
      Type_ := Some (AttributeTypeCustom false AttributeTypeString
        [Case datastarModifiers]) |};
   {| Name := "DatastarInit";
      Key := "init";
      Description := doc
      ("Runs an expression when the attribute is initialized. This can happen on page load, when an element is patched into the DOM, and any time the attribute is modified (via a backend action or otherwise).")
      "https://data-star.dev/reference/attributes#data-indicator";
      Type_ := Some (AttributeTypeCustom false AttributeTypeString
        [DelayMs datastarModifiers; DelaySec datastarModifiers; ViewTransition datastarModifiers]) |};
   {| Name := "DatastarJSONSignals";
      Key := "json-signals";
      Description := doc
      ("Sets the text content of an element to a reactive JSON stringified version of signals. Useful when troubleshooting an issue.")
      "https://data-star.dev/reference/attributes#data-json-signals";
      Type_ := Some (AttributeTypeCustom false AttributeTypeString
        [Terse datastarModifiers]) |};
   {| Name := "DatastarOn";
      Key := "on";
      Description := doc
      ("Attaches an event listener to an element, executing an expression whenever the event is triggered.")
      "https://data-star.dev/reference/attributes#data-on";
      Type_ := Some (AttributeTypeCustom true AttributeTypeString
        [Once datastarModifiers; Passive datastarModifiers; Capture datastarModifiers; Case datastarModifiers; DelayMs datastarModifiers; DelaySec datastarModifiers; DebounceMs datastarModifiers; DebounceMsLeading datastarModifiers; DebounceMsNoTrailing datastarModifiers; DebounceSec datastarModifiers; DebounceSecLeading datastarModifiers; DebounceSecNoTrailing datastarModifiers; ThrottleMs datastarModifiers; ThrottleMsNoLeading datastarModifiers; ThrottleMsTrailing datastarModifiers; ThrotlleSec datastarModifiers; ThrotlleSecNoLeading datastarModifiers; ThrotlleSecTrailing datastarModifiers; ViewTransition datastarModifiers; Window datastarModifiers; Prevent datastarModifiers; Outside datastarModifiers; Stop datastarModifiers]) |};
   {| Name := "DatastarOnIntersect";
      Key := "on-intersect";
      Description := plain "Runs an expression when the element intersects with the viewport.";
      Type_ := Some (AttributeTypeCustom false AttributeTypeString
        [Once datastarModifiers; Half datastarModifiers; Full datastarModifiers; DelayMs datastarModifiers; DelaySec datastarModifiers; DebounceMs datastarModifiers; DebounceMsLeading datastarModifiers; DebounceMsNoTrailing datastarModifiers; DebounceSec datastarModifiers; DebounceSecLeading datastarModifiers; DebounceSecNoTrailing datastarModifiers; ThrottleMs datastarModifiers; ThrottleMsNoLeading datastarModifiers; ThrottleMsTrailing datastarModifiers; ThrotlleSec datastarModifiers; ThrotlleSecNoLeading datastarModifiers; ThrotlleSecTrailing datastarModifiers; ViewTransition datastarModifiers]) |};
   {| Name := "DatastarOnInterval";
      Key := "on-interval";
      Description := doc
      ("Runs an expression at a regular interval. The interval duration defaults to one second and can be modified using the '__duration' modifier.")
      "https://data-star.dev/reference/attributes#data-on-interval";
      Type_ := Some (AttributeTypeCustom false AttributeTypeString
        [DurationMs datastarModifiers; DurationMsLeading datastarModifiers; DurationSec datastarModifiers; DurationSecLeading datastarModifiers; ViewTransition datastarModifiers]) |};
   {| Name := "DatastarOnSignalPatch";
      Key := "on-signal-patch";
      Description := doc
      ("Runs an expression whenever any signals are patched. This is useful for tracking changes, updating computed values, or triggering side effects when data updates.")
      "https://data-star.dev/reference/attributes#data-on-signal-patch";
      Type_ := Some (AttributeTypeCustom false AttributeTypeString
        [DelayMs datastarModifiers; DelaySec datastarModifiers; DebounceMs datastarModifiers; DebounceMsLeading datastarModifiers; DebounceMsNoTrailing datastarModifiers; DebounceSec datastarModifiers; DebounceSecLeading datastarModifiers; DebounceSecNoTrailing datastarModifiers; ThrottleMs datastarModifiers; ThrottleMsNoLeading datastarModifiers; ThrottleMsTrailing datastarModifiers; ThrotlleSec datastarModifiers; ThrotlleSecNoLeading datastarModifiers; ThrotlleSecTrailing datastarModifiers]) |};
   {| Name := "DatastarOnSignalPatchFilter";
      Key := "on-signal-patch-filter";
      Description := doc
      ("Filters which signals to watch when using the data-on-signal-patch attribute." +:+ nl +:+ nl +:+ "The data-on-signal-patch-filter attribute accepts an object with include and/or exclude properties that are regular expressions.")
      "https://data-star.dev/reference/attributes#data-on-signal-patch-filter";
      Type_ := Some (AttributeTypeCustom false AttributeTypeString
        []) |};
   {| Name := "DatastarPreserveAttr";
      Key := "preserve-attr";
      Description := doc
      ("Preserves the value of an attribute when morphing DOM elements.")
      "https://data-star.dev/reference/attributes#data-preserve-attr";
      Type_ := Some (AttributeTypeCustom false AttributeTypeString
        []) |};
   {| Name := "DatastarRef";
      Key := "ref";
      Description := doc
      ("Creates a new signal that is a reference to the element on which the data attribute is placed.")
      "https://data-star.dev/reference/attributes#data-ref";
      Type_ := Some (AttributeTypeCustom false AttributeTypeString
        [Case datastarModifiers]) |};
   {| Name := "DatastarShow";
      Key := "show";
      Description := doc
      ("Shows or hides an element based on whether an expression evaluates to 'true' or 'false'. For anything with custom requirements, use 'data-class' instead.")
      "https://data-star.dev/reference/attributes#data-show";
      Type_ := Some (AttributeTypeCustom false AttributeTypeString
        []) |};
   {| Name := "DatastarSignals";
      Key := "signals";
      Description := doc
      ("Patches (adds, updates or removes) one or more signals into the existing signals. Values defined later in the DOM tree override those defined earlier.")
      "https://data-star.dev/reference/attributes#data-signals";
      Type_ := Some (AttributeTypeCustom true AttributeTypeString
        [Case datastarModifiers; IfMissing datastarModifiers]) |};
   {| Name := "DatastarStyle";
      Key := "datastar-style";
      Description := doc
      ("Sets the value of inline CSS styles on an element based on an expression, and keeps them in sync.")
      "https://data-star.dev/reference/attributes#data-style";
      Type_ := Some (AttributeTypeCustom true AttributeTypeString
        [Case datastarModifiers]) |};
   {| Name := "DatastarText";
      Key := "text";
      Description := doc
      ("Binds the text content of an element to an expression.")
      "https://data-star.dev/reference/attributes#data-text";
      Type_ := Some (AttributeTypeCustom false AttributeTypeString
        []) |}
 ].

End Literal.

Section Net.

(** The outside world [doc] depends on: the parser of package net/url and the
    network behind [http.Get].  A fetch may change the world, and two fetches
    of one URL need not agree. *)
Variable World : Type.
Variable URL : Type.
Variable error : Type.
Variable url_Parse : string -> URL + error.
Variable URL_String : URL -> string.
Variable http_Get : World -> string -> (option http.Response * option error) * World.

(** Computations that may panic and that talk to the network. *)
Definition M (A : Type) : Type := World -> outcome A * World.

#[local] Instance M_ret : MRet M := fun A a w => (Returns a, w).
#[local] Instance M_bind : MBind M := fun A B k c w =>
  match c w with
  | (Returns a, w') => k a w'
  | (Panics v, w') => (Panics v, w')
  end.

Definition lift {A} (o : outcome A) : M A := fun w => (o, w).
Definition panic {A} (v : panic_value) : M A := lift (Panics v).
Definition Get (u : string) : M (option http.Response * option error) :=
  fun w => let (r, w') := http_Get w u in (Returns r, w').

Definition doc (description u_ : string) : M string :=
  match url_Parse u_ with
  | inr _ =>
      desc ← lift (d ← slice description 0 30; Returns (d +:+ "..."));
      panic (PanicString (desc +:+ ": invalid URL"))
  | inl u =>
      '(resp, err) ← Get (URL_String u);
      failed ← lift (match err with
                     | Some _ => Returns true
                     | None => code ← deref resp http.StatusCode;
                               Returns (bool_decide (code ≠ http.StatusOK))
                     end);
      if failed : bool then
        code ← lift (deref resp http.StatusCode);
        panic (PanicError ("Failed to fetch url " +:+ URL_String u
                           +:+ " (statusCode=" +:+ pretty code +:+ ")"))
      else mret (description +:+ nl +:+ nl +:+ "See: " +:+ URL_String u)
  end.

Import pb.Attribute.

(** One element of the literal: its [Description] is evaluated, the other
    fields are stored. *)
Definition element (a : Attribute.t (M string)) : M (Attribute.t string) :=
  d ← Description a;
  mret {| Name := Name a; Key := Key a; Description := d; Type_ := Type_ a |}.

(** The elements of a composite literal are evaluated in source order. *)
Fixpoint elements (l : list (Attribute.t (M string))) : M (list (Attribute.t string)) :=
  match l with
  | [] => mret []
  | a :: rest => x ← element a; xs ← elements rest; mret (x :: xs)
  end.

Definition DatastarExtensions (datastarModifiers : attributeCustomModifiers)
  : M (list (Attribute.t string)) :=
  elements (DatastarExtensions_literal doc mret datastarModifiers).

(** Package initialisation: [datastarModifiers] first ([DatastarExtensions]
    refers to it), then the catalog. *)
Definition init : M (attributeCustomModifiers * list (Attribute.t string)) :=
  m ← lift datastarModifiers_init;
  c ← DatastarExtensions m;
  mret (m, c).

End Net.

End cfg.

(** ** Package time: durations *)

Module time.
(** [time.Duration] is a count of nanoseconds. *)
Definition Duration := Z.
Definition Millisecond : Duration := 1000000%Z.
Definition Second : Duration := 1000000000%Z.
(** Whole milliseconds and whole seconds of a duration, as the tokens of the
    tests print them ([delay.200ms], [delay.5s]); Go's integer division
    truncates towards zero. *)
Definition Milliseconds (d : Duration) : Z := Z.quot d Millisecond.
Definition Seconds (d : Duration) : Z := Z.quot d Second.
End time.

(** ** Package elements: the generated builders and the renderer *)

Module elements.
Import pb.

Abbreviation Modifier := pb.Attribute_Custom_Modifier.t.

(** Modelled from the spec: the argument a generated modifier function takes,
    one per value kind of section 3: none for a bool modifier, a string, or a
    duration.  Package elements is generated code that is not part of the
    sources at hand. *)
Inductive arg :=
| NoArg
| Str (s : string)
| Dur (d : time.Duration).

(** Modelled from the spec: the value part of a modifier token, by the value
    kind of the modifier (section 3); [None] where the argument is not of the
    kind the generated function accepts. *)
Definition value (t : Attribute_Type_Base) (a : arg) : option string :=
  match t, a with
  | AttributeTypeBool, NoArg => Some ""
  | AttributeTypeString, Str s => Some s
  | AttributeTypeDurationMs, Dur d => Some (pretty (time.Milliseconds d))
  | AttributeTypeDurationSec, Dur d => Some (pretty (time.Seconds d))
  | _, _ => None
  end.

(** Modelled from the spec: one modifier token of section 6,
    [__<modifier-prefix><value><modifier-suffix>]. *)
Definition token (m : Modifier) (a : arg) : option string :=
  t ← Attribute_Custom_Modifier.Type_ m;
  v ← value (mt_base t) a;
  Some ("__" +:+ Attribute_Custom_Modifier.Prefix m +:+ v
        +:+ Attribute_Custom_Modifier.Suffix m).

(** Modelled from the spec: the wire name of section 6, [data-<key>[:<subkey>]]. *)
Definition wire_name (key subkey : string) : string :=
  "data-" +:+ key +:+ (if decide (subkey = "") then "" else ":" +:+ subkey).

(** Modelled from the spec: what an element stores for one attribute, the
    modifier tokens in the order given and the value expression (none for a
    bool attribute). *)
Record attribute := {
  tokens : list string;
  expression : option string;
}.

(** Modelled from the spec: an element under construction, its tag and its
    attributes by wire name. *)
Record Element := {
  Tag : string;
  Attributes : gmap string attribute;
}.

Definition new (tag : string) : Element := {| Tag := tag; Attributes := ∅ |}.

(** Modelled from the spec: the serialisation of section 6,
    [data-<key>[:<subkey>][__<modifier>...]="<expression>"]. *)
Definition render_attribute (name : string) (a : attribute) : string :=
  name +:+ String.concat "" (tokens a) +:+
  match expression a with
  | Some e => "=" +:+ dq +:+ e +:+ dq
  | None => ""
  end.

Definition render_attributes (l : list (string * attribute)) : string :=
  String.concat "" (map (fun p => " " +:+ render_attribute p.1 p.2) l).

(** Modelled from the spec: the attributes are written in the order of their
    wire names, compared bytewise, which is the order the two tests that
    combine a Datastar attribute with a plain one expect. *)
Definition by_name (p q : string * attribute) : Prop :=
  String.leb p.1 q.1 = true.

#[global] Instance by_name_dec p q : Decision (by_name p q).
Proof. unfold by_name. apply _. Defined.

Definition render (e : Element) : string :=
  "<" +:+ Tag e
  +:+ render_attributes (merge_sort by_name (map_to_list (Attributes e)))
  +:+ "></" +:+ Tag e +:+ ">".

(** Modelled from the spec: [Render] appends the serialisation to the buffer it
    is given and leaves the element as it is. *)
Definition Render (e : Element) (buf : string) : string * option string :=
  (buf +:+ render e, None).

Section Builders.
Context {D : Type}.
Implicit Type a : Attribute.t D.

(** The modifier of the given [Name] among those the entry permits. *)
Definition permitted a (name : string) : option Modifier :=
  t ← Attribute.Type_ a;
  mjoin (List.find
    (fun p => match p with
              | Some m => bool_decide (Attribute_Custom_Modifier.Name m = name)
              | None => false
              end)
    (at_modifiers t)).

Fixpoint resolve a (mods : list (string * arg)) : option (list string) :=
  match mods with
  | [] => Some []
  | (name, x) :: rest =>
      m ← permitted a name;
      t ← token m x;
      ts ← resolve a rest;
      Some (t :: ts)
  end.

(** The arguments fit the entry: a sub-key only where the entry is
    customizable, a value expression unless the entry is a bool. *)
Definition fits a (subkey : string) (expr : option string) : bool :=
  match Attribute.Type_ a with
  | Some t =>
      (at_customizable t || bool_decide (subkey = "")) &&
      match at_base t, expr with
      | AttributeTypeBool, None => true
      | AttributeTypeString, Some _ => true
      | _, _ => false
      end
  | None => false
  end.

(** Modelled from the spec: the builder method generated for an entry.  It
    stores the attribute under its wire name; [None] stands for a call that the
    generated signatures do not admit. *)
Definition Set_ a (subkey : string) (expr : option string)
    (mods : list (string * arg)) (e : Element) : option Element :=
  if fits a subkey expr then
    ts ← resolve a mods;
    Some {| Tag := Tag e;
            Attributes := <[wire_name (Attribute.Key a) subkey :=
                             {| tokens := ts; expression := expr |}]> (Attributes e) |}
  else None.

(** Modelled from the spec: the [...Remove] form of section 6. *)
Definition Remove a (subkey : string) (e : Element) : Element :=
  {| Tag := Tag e;
     Attributes := delete (wire_name (Attribute.Key a) subkey) (Attributes e) |}.

(** Modelled from the spec: the [...Set(b)] form of a bool attribute. *)
Definition SetBool a (b : bool) (e : Element) : option Element :=
  if b then Set_ a "" None [] e else Some (Remove a "" e).

(** Modelled from the spec: the [If...] form, which sets the attribute only
    when the condition holds. *)
Definition If a (cond : bool) (subkey : string) (expr : option string)
    (mods : list (string * arg)) (e : Element) : option Element :=
  if cond then Set_ a subkey expr mods e else Some e.

End Builders.

End elements.

(** ** Package bytebufferpool (third party): the pool the test driver uses *)

Module bytebufferpool.
(** The pool of github.com/valyala/bytebufferpool as the driver of the tests
    uses it.  A pool holds byte buffers; [Get] hands out one of them, or a new
    empty buffer when it holds none; [Put] resets the buffer and keeps it for a
    later [Get]. *)
Definition Pool := list string.
Definition Reset (b : string) : string := "".
Definition Get (p : Pool) : string * Pool :=
  match p with
  | [] => ("", [])
  | b :: rest => (b, rest)
  end.
Definition Put (b : string) (p : Pool) : Pool := Reset b :: p.
(** What every pool reached through [Put] satisfies. *)
Definition clean (p : Pool) : Prop := Forall (fun b => b = "") p.
End bytebufferpool.

(** ** Package tests: the table of datastar_test.go and its driver *)

Module tests.
Import pb elements.

(** The catalog the generator reads, with the descriptions left out: the
    builders depend on [Name], [Key] and [Type] only. *)
Definition catalog : list (Attribute.t unit) :=
  cfg.DatastarExtensions_literal (fun _ _ => tt) (fun _ => tt)
    registry.datastarModifiers_literal.

Definition entry (name : string) : option (Attribute.t unit) :=
  List.find (fun a => bool_decide (Attribute.Name a = name)) catalog.

(** Modelled from the spec: the builder methods the tests call.  The method
    [DATASTAR_X] is the one generated for the catalog entry named [DatastarX];
    an entry that is customizable takes a sub-key first, a bool entry takes no
    expression. *)
Definition keyed (name key expression : string) (modifiers : list (string * arg))
    (e : Element) : option Element :=
  a ← entry name; Set_ a key (Some expression) modifiers e.
Definition plain (name expression : string) (modifiers : list (string * arg))
    (e : Element) : option Element :=
  a ← entry name; Set_ a "" (Some expression) modifiers e.
Definition flag (name : string) (modifiers : list (string * arg))
    (e : Element) : option Element :=
  a ← entry name; Set_ a "" None modifiers e.
Definition removed (name key : string) (e : Element) : option Element :=
  a ← entry name; Some (Remove a key e).

Definition DATASTAR_ATTR (key expression : string) (modifiers : list (string * arg)) :=
  keyed "DatastarAttr" key expression modifiers.
Definition DATASTAR_BIND (key expression : string) (modifiers : list (string * arg)) :=
  keyed "DatastarBind" key expression modifiers.
Definition DATASTAR_CLASS (key expression : string) (modifiers : list (string * arg)) :=
  keyed "DatastarClass" key expression modifiers.
Definition DATASTAR_COMPUTED (key expression : string) (modifiers : list (string * arg)) :=
  keyed "DatastarComputed" key expression modifiers.
Definition DATASTAR_EFFECT (expression : string) (modifiers : list (string * arg)) :=
  plain "DatastarEffect" expression modifiers.
Definition DATASTAR_IGNORE (modifiers : list (string * arg)) :=
  flag "DatastarIgnore" modifiers.
Definition DATASTAR_IGNORE_MORPH (modifiers : list (string * arg)) :=
  flag "DatastarIgnoreMorph" modifiers.
Definition DATASTAR_INDICATOR (expression : string) (modifiers : list (string * arg)) :=
  plain "DatastarIndicator" expression modifiers.
Definition DATASTAR_INIT (expression : string) (modifiers : list (string * arg)) :=
  plain "DatastarInit" expression modifiers.
Definition DATASTAR_JSON_SIGNALS (expression : string) (modifiers : list (string * arg)) :=
  plain "DatastarJSONSignals" expression modifiers.
Definition DATASTAR_ON (key expression : string) (modifiers : list (string * arg)) :=
  keyed "DatastarOn" key expression modifiers.
Definition DATASTAR_ON_INTERSECT (expression : string) (modifiers : list (string * arg)) :=
  plain "DatastarOnIntersect" expression modifiers.
Definition DATASTAR_ON_INTERVAL (expression : string) (modifiers : list (string * arg)) :=
  plain "DatastarOnInterval" expression modifiers.
Definition DATASTAR_ON_SIGNAL_PATCH (expression : string) (modifiers : list (string * arg)) :=
  plain "DatastarOnSignalPatch" expression modifiers.
Definition DATASTAR_ON_SIGNAL_PATCH_FILTER (expression : string) (modifiers : list (string * arg)) :=
  plain "DatastarOnSignalPatchFilter" expression modifiers.
Definition DATASTAR_PRESERVE_ATTR (expression : string) (modifiers : list (string * arg)) :=
  plain "DatastarPreserveAttr" expression modifiers.
Definition DATASTAR_REF (expression : string) (modifiers : list (string * arg)) :=
  plain "DatastarRef" expression modifiers.
Definition DATASTAR_SHOW (expression : string) (modifiers : list (string * arg)) :=
  plain "DatastarShow" expression modifiers.
Definition DATASTAR_SIGNALS (key expression : string) (modifiers : list (string * arg)) :=
  keyed "DatastarSignals" key expression modifiers.
Definition DATASTAR_STYLE (key expression : string) (modifiers : list (string * arg)) :=
  keyed "DatastarStyle" key expression modifiers.
Definition DATASTAR_TEXT (expression : string) (modifiers : list (string * arg)) :=
  plain "DatastarText" expression modifiers.
Definition DATASTAR_ATTRRemove (key : string) := removed "DatastarAttr" key.
Definition DATASTAR_IGNORE_MORPHSet (b : bool) (e : Element) : option Element :=
  a ← entry "DatastarIgnoreMorph"; SetBool a b e.
Definition IfDATASTAR_BIND (cond : bool) (key expression : string)
    (modifiers : list (string * arg)) (e : Element) : option Element :=
  a ← entry "DatastarBind"; If a cond key (Some expression) modifiers e.
Definition IfDATASTAR_EFFECT (cond : bool) (expression : string)
    (modifiers : list (string * arg)) (e : Element) : option Element :=
  a ← entry "DatastarEffect"; If a cond "" (Some expression) modifiers e.

(** A generated modifier function, [<Element><Attribute>Mod<Name>(argument)]. *)
Definition Mod (name : string) (x : arg) : string * arg := (name, x).

Definition DIV : option Element := Some (new "div").
Definition PRE : option Element := Some (new "pre").
Definition BUTTON : option Element := Some (new "button").
Definition SPAN : option Element := Some (new "span").
Definition DETAILS : option Element := Some (new "details").

(** Modelled from the spec: two plain HTML attributes the tests combine with
    Datastar ones; they are stored like any other attribute. *)
Definition OPEN (e : Element) : option Element :=
  Some {| Tag := Tag e;
          Attributes := <["open" := {| tokens := []; expression := None |}]> (Attributes e) |}.
Definition STYLE (k v : string) (e : Element) : option Element :=
  Some {| Tag := Tag e;
          Attributes := <["style" := {| tokens := []; expression := Some (k +:+ ":" +:+ v) |}]>
                          (Attributes e) |}.

(** A chain of builder calls, [DIV().A(...).B(...)]. *)
Notation "e |> f" := (mbind (M := option) f e)
  (at level 50, left associativity, only parsing).

Record result := {
  Expected : string;
  Actual : option Element;
}.

Definition TestDatastarAttr : list result := [
  {| Expected := "<div data-attr:title=" +:+ dq +:+ "$foo" +:+ dq +:+ "></div>";
     Actual := DIV |> DATASTAR_ATTR "title" "$foo" [] |};
  {| Expected := "<div></div>";
     Actual := DIV |> DATASTAR_ATTR "title" "$foo" [] |> DATASTAR_ATTRRemove "title" |};
  {| Expected := "<div data-attr=" +:+ dq +:+ "{title: $foo, disabled: $bar}" +:+ dq +:+ "></div>";
     Actual := DIV |> DATASTAR_ATTR "" ("{title: $foo, disabled: $bar}") [] |};
  {| Expected := "<div></div>";
     Actual := DIV |> DATASTAR_ATTR "" ("{title: $foo, disabled: $bar}") [] |> DATASTAR_ATTRRemove "" |} ].

Definition TestDatastarBind : list result := [
  {| Expected := "<div data-bind:title=" +:+ dq +:+ "foo" +:+ dq +:+ "></div>";
     Actual := DIV |> DATASTAR_BIND "title" "foo" [] |};
  {| Expected := "<div></div>";
     Actual := DIV |> IfDATASTAR_BIND false "title" "foo" [] |} ].

Definition TestDatastarClass : list result := [
  {| Expected := "<div data-class:hidden=" +:+ dq +:+ "$foo" +:+ dq +:+ "></div>";
     Actual := DIV |> DATASTAR_CLASS "hidden" "$foo" [] |};
  {| Expected := "<div data-class:hidden__case.camel=" +:+ dq +:+ "$foo" +:+ dq +:+ "></div>";
     Actual := DIV |> DATASTAR_CLASS "hidden" "$foo" [Mod "Case" (Str "camel")] |} ].

Definition TestDatastarComputed : list result := [
  {| Expected := "<div data-computed:foo=" +:+ dq +:+ "$bar + $baz" +:+ dq +:+ "></div>";
     Actual := DIV |> DATASTAR_COMPUTED "foo" ("$bar + $baz") [] |};
  {| Expected := "<div data-computed:foo__case.kebab=" +:+ dq +:+ "$bar + $baz" +:+ dq +:+ "></div>";
     Actual := DIV |> DATASTAR_COMPUTED "foo" ("$bar + $baz") [Mod "Case" (Str "kebab")] |} ].

Definition TestDatastarEffect : list result := [
  {| Expected := "<div data-effect=" +:+ dq +:+ "$foo = $bar + $baz" +:+ dq +:+ "></div>";
     Actual := DIV |> DATASTAR_EFFECT ("$foo = $bar + $baz") [] |};
  {| Expected := "<div data-effect=" +:+ dq +:+ "$foo = $bar + $baz" +:+ dq +:+ "></div>";
     Actual := DIV |> IfDATASTAR_EFFECT true ("$foo = $bar + $baz") [] |} ].

Definition TestDatastarIgnore : list result := [
  {| Expected := "<div data-ignore></div>";
     Actual := DIV |> DATASTAR_IGNORE [] |};
  {| Expected := "<div data-ignore__self></div>";
     Actual := DIV |> DATASTAR_IGNORE [Mod "Self" NoArg] |} ].

Definition TestDatastarIgnoreMorph : list result := [
  {| Expected := "<div data-ignore-morph></div>";
     Actual := DIV |> DATASTAR_IGNORE_MORPH [] |};
  {| Expected := "<div></div>";
     Actual := DIV |> DATASTAR_IGNORE_MORPHSet false |} ].

Definition TestDatastarIndicator : list result := [
  {| Expected := "<div data-indicator=" +:+ dq +:+ "fetching" +:+ dq +:+ "></div>";
     Actual := DIV |> DATASTAR_INDICATOR "fetching" [] |};
  {| Expected := "<div data-indicator__case.pascal=" +:+ dq +:+ "foo" +:+ dq +:+ "></div>";
     Actual := DIV |> DATASTAR_INDICATOR "foo" [Mod "Case" (Str "pascal")] |} ].

Definition TestDatastarInit : list result := [
  {| Expected := "<div data-init=" +:+ dq +:+ "$count = 1" +:+ dq +:+ "></div>";
     Actual := DIV |> DATASTAR_INIT ("$count = 1") [] |};
  {| Expected := "<div data-init__delay.200ms=" +:+ dq +:+ "$count = 1" +:+ dq +:+ "></div>";
     Actual := DIV |> DATASTAR_INIT ("$count = 1") [Mod "DelayMs" (Dur (200 * time.Millisecond)%Z)] |};
  {| Expected := "<div data-init__delay.5s=" +:+ dq +:+ "$count = 1" +:+ dq +:+ "></div>";
     Actual := DIV |> DATASTAR_INIT ("$count = 1") [Mod "DelaySec" (Dur (5 * time.Second)%Z)] |};
  {| Expected := "<div data-init__viewtransition=" +:+ dq +:+ "$count = 1" +:+ dq +:+ "></div>";
     Actual := DIV |> DATASTAR_INIT ("$count = 1") [Mod "ViewTransition" NoArg] |} ].

Definition TestDatastarJsonSignals : list result := [
  {| Expected := "<pre data-json-signals=" +:+ dq +:+ "{include: /^app/, exclude: /password/}" +:+ dq +:+ "></pre>";
     Actual := PRE |> DATASTAR_JSON_SIGNALS ("{include: /^app/, exclude: /password/}") [] |};
  {| Expected := "<pre data-json-signals__terse=" +:+ dq +:+ "{include: /^app/, exclude: /password/}" +:+ dq +:+ "></pre>";
     Actual := PRE |> DATASTAR_JSON_SIGNALS ("{include: /^app/, exclude: /password/}") [Mod "Terse" NoArg] |} ].

Definition TestDatastarOn : list result := [
  {| Expected := "<button data-on:click=" +:+ dq +:+ "$foo = ''" +:+ dq +:+ "></button>";
     Actual := BUTTON |> DATASTAR_ON "click" ("$foo = ''") [] |};
  {| Expected := "<button data-on:click__window=" +:+ dq +:+ "$foo = ''" +:+ dq +:+ "></button>";
     Actual := BUTTON |> DATASTAR_ON "click" ("$foo = ''") [Mod "Window" NoArg] |};
  {| Expected := "<div data-on:my-event__debounce.2s=" +:+ dq +:+ "$foo = 'bar'" +:+ dq +:+ "></div>";
     Actual := DIV |> DATASTAR_ON "my-event" ("$foo = 'bar'") [Mod "DebounceSec" (Dur (2 * time.Second)%Z)] |};
  {| Expected := "<button data-on:click__debounce.500ms.leading=" +:+ dq +:+ "$foo = ''" +:+ dq +:+ "></button>";
     Actual := BUTTON |> DATASTAR_ON "click" ("$foo = ''") [Mod "DebounceMsLeading" (Dur (500 * time.Millisecond)%Z)] |};
  {| Expected := "<button data-on:click__window__debounce.1s.notrailing=" +:+ dq +:+ "$foo = ''" +:+ dq +:+ "></button>";
     Actual := BUTTON |> DATASTAR_ON "click" ("$foo = ''") [Mod "Window" NoArg; Mod "DebounceSecNoTrailing" (Dur (1 * time.Second)%Z)] |};
  {| Expected := "<span data-on:click__throttle.200ms=" +:+ dq +:+ "$foo = 'bar'" +:+ dq +:+ "></span>";
     Actual := SPAN |> DATASTAR_ON "click" ("$foo = 'bar'") [Mod "ThrottleMs" (Dur (200 * time.Millisecond)%Z)] |};
  {| Expected := "<button data-on:click__throttle.500ms.trailing__window=" +:+ dq +:+ "$foo = ''" +:+ dq +:+ "></button>";
     Actual := BUTTON |> DATASTAR_ON "click" ("$foo = ''") [Mod "ThrottleMsTrailing" (Dur (500 * time.Millisecond)%Z); Mod "Window" NoArg] |};
  {| Expected := "<div data-on:my-event__throttle.3s.noleading__case.snake=" +:+ dq +:+ "$foo = 'evt.detail'" +:+ dq +:+ "></div>";
     Actual := DIV |> DATASTAR_ON "my-event" ("$foo = 'evt.detail'") [Mod "ThrottleSecNoLeading" (Dur (3 * time.Second)%Z); Mod "Case" (Str "snake")] |} ].

Definition TestDatastarOnIntersect : list result := [
  {| Expected := "<div data-on-intersect=" +:+ dq +:+ "$intersected = true" +:+ dq +:+ "></div>";
     Actual := DIV |> DATASTAR_ON_INTERSECT ("$intersected = true") [] |};
  {| Expected := "<div data-on-intersect__once__full=" +:+ dq +:+ "$fullyIntersected = true" +:+ dq +:+ "></div>";
     Actual := DIV |> DATASTAR_ON_INTERSECT ("$fullyIntersected = true") [Mod "Once" NoArg; Mod "Full" NoArg] |};
  {| Expected := "<div data-on-intersect__half__debounce.2s=" +:+ dq +:+ "$halfIntersected = true" +:+ dq +:+ "></div>";
     Actual := DIV |> DATASTAR_ON_INTERSECT ("$halfIntersected = true") [Mod "Half" NoArg; Mod "DebounceSec" (Dur (2 * time.Second)%Z)] |};
  {| Expected := "<button data-on-intersect__debounce.500ms.leading=" +:+ dq +:+ "$intersected = true" +:+ dq +:+ "></button>";
     Actual := BUTTON |> DATASTAR_ON_INTERSECT ("$intersected = true") [Mod "DebounceMsLeading" (Dur (500 * time.Millisecond)%Z)] |};
  {| Expected := "<button data-on-intersect__viewtransition__debounce.1s.notrailing=" +:+ dq +:+ "$intersected = true" +:+ dq +:+ "></button>";
     Actual := BUTTON |> DATASTAR_ON_INTERSECT ("$intersected = true") [Mod "ViewTransition" NoArg; Mod "DebounceSecNoTrailing" (Dur (1 * time.Second)%Z)] |};
  {| Expected := "<span data-on-intersect__throttle.200ms=" +:+ dq +:+ "$intersected = true" +:+ dq +:+ "></span>";
     Actual := SPAN |> DATASTAR_ON_INTERSECT ("$intersected = true") [Mod "ThrottleMs" (Dur (200 * time.Millisecond)%Z)] |};
  {| Expected := "<button data-on-intersect__throttle.500ms.trailing__viewtransition=" +:+ dq +:+ "$intersected = true" +:+ dq +:+ "></button>";
     Actual := BUTTON |> DATASTAR_ON_INTERSECT ("$intersected = true") [Mod "ThrottleMsTrailing" (Dur (500 * time.Millisecond)%Z); Mod "ViewTransition" NoArg] |};
  {| Expected := "<div data-on-intersect__throttle.3s.noleading=" +:+ dq +:+ "$intersected = true" +:+ dq +:+ "></div>";
     Actual := DIV |> DATASTAR_ON_INTERSECT ("$intersected = true") [Mod "ThrottleSecNoLeading" (Dur (3 * time.Second)%Z)] |} ].

Definition TestDataOnInterval : list result := [
  {| Expected := "<div data-on-interval__duration.500ms=" +:+ dq +:+ "$count++" +:+ dq +:+ "></div>";
     Actual := DIV |> DATASTAR_ON_INTERVAL "$count++" [Mod "DurationMs" (Dur (500 * time.Millisecond)%Z)] |};
  {| Expected := "<div data-on-interval__duration.2s.leading=" +:+ dq +:+ "$count++" +:+ dq +:+ "></div>";
     Actual := DIV |> DATASTAR_ON_INTERVAL "$count++" [Mod "DurationSecLeading" (Dur (2 * time.Second)%Z)] |};
  {| Expected := "<div data-on-interval__duration.2s__viewtransition=" +:+ dq +:+ "$count++" +:+ dq +:+ "></div>";
     Actual := DIV |> DATASTAR_ON_INTERVAL "$count++" [Mod "DurationSec" (Dur (2 * time.Second)%Z); Mod "ViewTransition" NoArg] |} ].

Definition TestDatastarOnSignalPatch : list result := [
  {| Expected := "<div data-on-signal-patch=" +:+ dq +:+ "console.log('A signal changed!')" +:+ dq +:+ "></div>";
     Actual := DIV |> DATASTAR_ON_SIGNAL_PATCH ("console.log('A signal changed!')") [] |};
  {| Expected := "<div data-on-signal-patch__delay.500ms=" +:+ dq +:+ "console.log('A signal changed!')" +:+ dq +:+ "></div>";
     Actual := DIV |> DATASTAR_ON_SIGNAL_PATCH ("console.log('A signal changed!')") [Mod "DelayMs" (Dur (500 * time.Millisecond)%Z)] |};
  {| Expected := "<div data-on-signal-patch__debounce.500ms.leading=" +:+ dq +:+ "console.log('A signal changed!')" +:+ dq +:+ "></div>";
     Actual := DIV |> DATASTAR_ON_SIGNAL_PATCH ("console.log('A signal changed!')") [Mod "DebounceMsLeading" (Dur (500 * time.Millisecond)%Z)] |} ].

Definition TestDatastarOnSignalPatchFilter : list result := [
  {| Expected := "<div data-on-signal-patch-filter=" +:+ dq +:+ "{include: /^counter$/}" +:+ dq +:+ "></div>";
     Actual := DIV |> DATASTAR_ON_SIGNAL_PATCH_FILTER ("{include: /^counter$/}") [] |} ].

Definition TestDatastarPreserveAttr : list result := [
  {| Expected := "<details data-preserve-attr=" +:+ dq +:+ "open class" +:+ dq +:+ " open></details>";
     Actual := DETAILS |> OPEN |> DATASTAR_PRESERVE_ATTR ("open class") [] |} ].

Definition TestDatastarRef : list result := [
  {| Expected := "<div data-ref=" +:+ dq +:+ "foo" +:+ dq +:+ "></div>";
     Actual := DIV |> DATASTAR_REF "foo" [] |};
  {| Expected := "<div data-ref__case.camel=" +:+ dq +:+ "fooBar" +:+ dq +:+ "></div>";
     Actual := DIV |> DATASTAR_REF "fooBar" [Mod "Case" (Str "camel")] |} ].

Definition TestDatastarShow : list result := [
  {| Expected := "<div data-show=" +:+ dq +:+ "$foo" +:+ dq +:+ "></div>";
     Actual := DIV |> DATASTAR_SHOW "$foo" [] |} ].

Definition TestDatastaSignals : list result := [
  {| Expected := "<div data-signals:foo=" +:+ dq +:+ "1" +:+ dq +:+ "></div>";
     Actual := DIV |> DATASTAR_SIGNALS "foo" "1" [] |};
  {| Expected := "<div data-signals=" +:+ dq +:+ "{foo: {bar: 1, baz: 2}}" +:+ dq +:+ "></div>";
     Actual := DIV |> DATASTAR_SIGNALS "" ("{foo: {bar: 1, baz: 2}}") [] |};
  {| Expected := "<div data-signals__ifmissing=" +:+ dq +:+ "{foo: null}" +:+ dq +:+ "></div>";
     Actual := DIV |> DATASTAR_SIGNALS "" ("{foo: null}") [Mod "IfMissing" NoArg] |};
  {| Expected := "<div data-signals:my-signal__case.kebab=" +:+ dq +:+ "1" +:+ dq +:+ "></div>";
     Actual := DIV |> DATASTAR_SIGNALS "my-signal" "1" [Mod "Case" (Str "kebab")] |} ].

Definition TestDatastarStyle : list result := [
  {| Expected := "<div data-style:background-color=" +:+ dq +:+ "$usingRed ? 'red' : 'blue'" +:+ dq +:+ "></div>";
     Actual := DIV |> DATASTAR_STYLE "background-color" ("$usingRed ? 'red' : 'blue'") [] |};
  {| Expected := "<div data-style=" +:+ dq +:+ "{color: '$x && green'" +:+ dq +:+ " style=" +:+ dq +:+ "color:red" +:+ dq +:+ "></div>";
     Actual := DIV |> STYLE "color" "red" |> DATASTAR_STYLE "" ("{color: '$x && green'") [] |} ].

Definition TestDatastarText : list result := [
  {| Expected := "<div data-text=" +:+ dq +:+ "$foo" +:+ dq +:+ "></div>";
     Actual := DIV |> DATASTAR_TEXT "$foo" [] |} ].

Definition all_tests : list (list result) :=
  [TestDatastarAttr; TestDatastarBind; TestDatastarClass; TestDatastarComputed; TestDatastarEffect; TestDatastarIgnore; TestDatastarIgnoreMorph; TestDatastarIndicator; TestDatastarInit; TestDatastarJsonSignals; TestDatastarOn; TestDatastarOnIntersect; TestDataOnInterval; TestDatastarOnSignalPatch; TestDatastarOnSignalPatchFilter; TestDatastarPreserveAttr; TestDatastarRef; TestDatastarShow; TestDatastaSignals; TestDatastarStyle; TestDatastarText].

(** The state of a [testing.T]: the assertions that failed so far, each with
    the expected and the actual string. *)
Definition T := list (string * string).

(** The body of the loop of [run] for an element: take a buffer, render into
    it, read it, give it back. *)
Definition rendered (e : Element) (pool : bytebufferpool.Pool)
  : string * option string * bytebufferpool.Pool :=
  let (buf, pool) := bytebufferpool.Get pool in
  let (buf, err) := Render e buf in
  let a := buf in
  (a, err, bytebufferpool.Put buf pool).

Definition assert_NoError (t : T) (err : option string) : T :=
  match err with
  | None => t
  | Some msg => (t ++ [("no error", msg)])
  end.

Definition assert_Equal (t : T) (e a : string) : T :=
  if decide (e = a) then t else (t ++ [(e, a)]).

(** [run]: a chain of builder calls that the generated signatures do not
    admit has no element to render and is recorded as a failure. *)
Fixpoint run (t : T) (results : list result) (pool : bytebufferpool.Pool)
  : T * bytebufferpool.Pool :=
  match results with
  | [] => (t, pool)
  | r :: rest =>
      match Actual r with
      | Some el =>
          let '(a, err, pool) := rendered el pool in
          let t := assert_NoError t err in
          let t := assert_Equal t (Expected r) a in
          run t rest pool
      | None => run (t ++ [(Expected r, "")]) rest pool
      end
  end.

End tests.

(** ** Concrete networks *)

Module scenario.
(** Three networks on which the behaviour of [doc] and of package
    initialisation can be run: the world is the number of fetches made so far,
    a URL is kept as the string it was parsed from, and the parser rejects the
    string [":"], which has no scheme. *)
Definition url_Parse (u : string) : string + string :=
  if decide (u = ":") then inr "missing protocol scheme" else inl u.
Definition URL_String (u : string) : string := u.

Definition answered (code : Z) (w : nat) (u : string)
  : (option http.Response * option string) * nat :=
  ((Some {| http.StatusCode := code |}, None), S w).
Definition reachable := answered 200.
Definition not_found := answered 404.
Definition unreachable (w : nat) (u : string)
  : (option http.Response * option string) * nat :=
  ((None, Some "dial tcp: connection refused"), S w).

Definition doc (get : nat -> string -> (option http.Response * option string) * nat) :=
  cfg.doc nat string string url_Parse URL_String get.
Definition init (get : nat -> string -> (option http.Response * option string) * nat) :=
  cfg.init nat string string url_Parse URL_String get.
End scenario.

(** ** Predicates the properties are stated with *)

Import pb registry.

(** A reflected field holds a nil pointer. *)
Definition is_nil {A} (f : string * option A) : Prop := f.2 = None.

(** The invariant of section 3 read to the letter: no field of the modifier
    is empty or unset. *)
Definition complete (m : Modifier) : Prop :=
  Attribute_Custom_Modifier.Name m ≠ "" ∧
  Attribute_Custom_Modifier.Description m ≠ "" ∧
  Attribute_Custom_Modifier.Type_ m ≠ None ∧
  Attribute_Custom_Modifier.Prefix m ≠ "" ∧
  Attribute_Custom_Modifier.Suffix m ≠ "".

(** What the registry of the source does satisfy: every field but [Suffix]
    is filled in. *)
Definition described (m : Modifier) : Prop :=
  Attribute_Custom_Modifier.Name m ≠ "" ∧
  Attribute_Custom_Modifier.Description m ≠ "" ∧
  Attribute_Custom_Modifier.Type_ m ≠ None ∧
  Attribute_Custom_Modifier.Prefix m ≠ "".

(** The value kind of a modifier takes a unit (ms or s). *)
Definition timed (m : Modifier) : Prop :=
  ∃ t, Attribute_Custom_Modifier.Type_ m = Some t ∧
       (mt_base t = AttributeTypeDurationMs ∨ mt_base t = AttributeTypeDurationSec).

(** The fields of a catalog entry that do not depend on any fetch. *)
Definition skeleton {D} (a : Attribute.t D)
  : string * string * option Attribute_Type :=
  (Attribute.Name a, Attribute.Key a, Attribute.Type_ a).

(** A modifier pointer an entry refers to is usable: it is not nil, its
    [Prefix] is not empty and its [Type] is set. *)
Definition usable (p : option Modifier) : Prop :=
  ∃ m, p = Some m ∧
       Attribute_Custom_Modifier.Prefix m ≠ "" ∧
       Attribute_Custom_Modifier.Type_ m ≠ None.

(** The fetch of [u] in world [w] came back without an error and with
    status 200. *)
Definition fetched_ok {World URL error : Type} (URL_String : URL → string)
    (http_Get : World → string → (option http.Response * option error) * World)
    (w : World) (u : URL) : Prop :=
  ∃ resp, (http_Get w (URL_String u)).1 = (Some resp, None) ∧
          http.StatusCode resp = http.StatusOK.

(** ** The catalog literal as data, and networks that keep a log *)

Module source.

(** The two forms a [Description] takes in the literal of the source. *)
Inductive description :=
| Doc (text url : string)
| Plain (text : string).

(** The literal of [DatastarExtensions] with its descriptions unevaluated. *)
Definition entries (datastarModifiers : attributeCustomModifiers)
  : list (Attribute.t description) :=
  cfg.DatastarExtensions_literal Doc Plain datastarModifiers.

Definition retag {D E : Type} (f : D → E) (a : Attribute.t D) : Attribute.t E :=
  {| Attribute.Name := Attribute.Name a;
     Attribute.Key := Attribute.Key a;
     Attribute.Description := f (Attribute.Description a);
     Attribute.Type_ := Attribute.Type_ a |}.

(** The arguments of the calls of [doc] in a list of entries, in source order. *)
Definition docs (l : list (Attribute.t description)) : list (string * string) :=
  omap (fun a => match Attribute.Description a with
                 | Doc text url => Some (text, url)
                 | Plain _ => None
                 end) l.

(** The documentation links of the catalog, in source order. *)
Definition links : list string := (docs (entries datastarModifiers_literal)).*2.

Section Denote.
Variables (World URL error : Type).
Variable url_Parse : string → URL + error.
Variable URL_String : URL → string.
Variable http_Get : World → string → (option http.Response * option error) * World.

(** What a description of the literal stands for. *)
Definition denote (d : description) : cfg.M World string :=
  match d with
  | Doc text url => cfg.doc World URL error url_Parse URL_String http_Get text url
  | Plain text => fun w => (Returns text, w)
  end.

(** The string that [doc] hands to [http.Get] for a link, when the link
    parses. *)
Definition fetched (url : string) : option string :=
  match url_Parse url with
  | inl u => Some (URL_String u)
  | inr _ => None
  end.

(** A network that also records, in order, every string handed to
    [http.Get]. *)
Definition logged (st : World * list string) (u : string)
  : (option http.Response * option error) * (World * list string) :=
  let (r, w) := http_Get st.1 u in (r, (w, st.2 ++ [u])).

End Denote.

End source.

(** The failures [run] is expected to record for a table, as a function of
    the table alone. *)
Definition failure (r : tests.result) : list (string * string) :=
  match tests.Actual r with
  | Some e =>
      if decide (tests.Expected r = elements.render e) then []
      else [(tests.Expected r, elements.render e)]
  | None => [(tests.Expected r, "")]
  end.

Definition failures (results : list tests.result) : list (string * string) :=
  flat_map failure results.

(** The last byte of a string. *)
Fixpoint last_byte (s : string) : option Ascii.ascii :=
  match s with
  | EmptyString => None
  | String c EmptyString => Some c
  | String _ rest => last_byte rest
  end.

Fixpoint has_byte (c : Ascii.ascii) (s : string) : bool :=
  match s with
  | EmptyString => false
  | String c' rest => bool_decide (c = c') || has_byte c rest
  end.

Definition dot : Ascii.ascii := Ascii.ascii_of_nat 46.

(** The shape the registry gives to the [Prefix] and [Suffix] of a modifier,
    by its value kind: a flag has a [Prefix] without any dot and no [Suffix];
    a modifier that takes a value has a [Prefix] that ends in a dot, and its
    [Suffix] is empty for a string and starts with the unit for a duration,
    followed by nothing or by a dot and the name of an edge. *)
Definition unit_then_edge (unit suffix : string) : Prop :=
  suffix = unit ∨ ∃ edge, edge ≠ "" ∧ suffix = unit +:+ "." +:+ edge.

Definition well_shaped (m : Modifier) : Prop :=
  ∃ t, Attribute_Custom_Modifier.Type_ m = Some t ∧
    match mt_base t with
    | AttributeTypeBool =>
        has_byte dot (Attribute_Custom_Modifier.Prefix m) = false ∧
        Attribute_Custom_Modifier.Suffix m = ""
    | AttributeTypeString =>
        last_byte (Attribute_Custom_Modifier.Prefix m) = Some dot ∧
        Attribute_Custom_Modifier.Suffix m = ""
    | AttributeTypeDurationMs =>
        last_byte (Attribute_Custom_Modifier.Prefix m) = Some dot ∧
        unit_then_edge "ms" (Attribute_Custom_Modifier.Suffix m)
    | AttributeTypeDurationSec =>
        last_byte (Attribute_Custom_Modifier.Prefix m) = Some dot ∧
        unit_then_edge "s" (Attribute_Custom_Modifier.Suffix m)
    end.

(** The modifiers a registry holds, in declaration order. *)
Definition modifiers (a : attributeCustomModifiers) : list Modifier :=
  omap snd (fields a).

(** An entry of the built catalog against the entry of the literal it
    comes from. *)
Definition built_from {URL error : Type} (url_Parse : string → URL + error)
    (URL_String : URL → string)
    (s : Attribute.t source.description) (a : Attribute.t string) : Prop :=
  Attribute.Name a = Attribute.Name s ∧
  Attribute.Key a = Attribute.Key s ∧
  Attribute.Type_ a = Attribute.Type_ s ∧
  match Attribute.Description s with
  | source.Doc text url =>
      ∃ u, url_Parse url = inl u ∧
           Attribute.Description a = text +:+ nl +:+ nl +:+ "See: " +:+ URL_String u
  | source.Plain text => Attribute.Description a = text
  end.

(** * Properties *)

(** ** The validator *)

Lemma validate_loop_returns fs :
  validate_loop fs = Returns tt ↔ Forall (fun f => ¬ is_nil f) fs.
Proof.
  induction fs as [|[name [m|]] fs IH]; simpl.
  - split; [constructor | done].
  - rewrite IH. split.
    + intros H. constructor; [by unfold is_nil | done].
    + by inversion 1.
  - split; [done |]. inversion 1 as [|? ? Hnil]. by destruct Hnil.
Qed.

Lemma validate_loop_panics fs v :
  validate_loop fs = Panics v ↔
  ∃ pre name post,
    fs = pre ++ (name, None) :: post ∧
    Forall (fun f => ¬ is_nil f) pre ∧
    v = PanicString ("Modifier " +:+ name +:+ " is nil").
Proof.
  induction fs as [|[name [m|]] fs IH]; simpl.
  - split; [done |]. intros ([|? ?] & ? & ? & ? & _); done.
  - rewrite IH. split.
    + intros (pre & n & post & -> & Hpre & ->).
      exists ((name, Some m) :: pre), n, post.
      split_and!; [done | constructor; [by unfold is_nil | done] | done].
    + intros ([|p pre] & n & post & Heq & Hpre & ->); simplify_eq/=.
      inversion Hpre; subst. by exists pre, n, post.
  - split.
    + intros [= <-]. exists [], name, fs. by split_and!.
    + intros ([|p pre] & n & post & Heq & Hpre & ->); simplify_eq/=; [done |].
      inversion Hpre as [|? ? Hnil]. by destruct Hnil.
Qed.

Lemma validate_returns a :
  validate a = Returns a ↔ Forall (fun f => ¬ is_nil f) (fields a).
Proof.
  rewrite <- validate_loop_returns. unfold validate.
  destruct (validate_loop (fields a)) as [[]|v]; simpl; split; done.
Qed.

Lemma validate_panics a v :
  validate a = Panics v ↔ validate_loop (fields a) = Panics v.
Proof.
  unfold validate. destruct (validate_loop (fields a)) as [[]|v']; simpl;
    split; congruence.
Qed.

Lemma validate_panics_iff_nil a : panics (validate a) ↔ Exists is_nil (fields a).
Proof.
  split.
  - intros [v Hv]. apply validate_panics, validate_loop_panics in Hv
      as (pre & name & post & -> & _ & _).
    apply Exists_app. right. by constructor.
  - intros Hex. destruct (validate a) as [b|v] eqn:Hv; [|by exists v].
    assert (b = a) as ->.
    { unfold validate in Hv. destruct (validate_loop _); by simplify_eq/=. }
    apply validate_returns in Hv. apply Exists_exists in Hex as (f & Hf & Hnil).
    rewrite Forall_forall in Hv. by destruct (Hv f Hf).
Qed.

(** C1: [validate] returns the very record it was given when every pointer
    field is non-nil; it panics exactly when some field is nil, and the panic
    value is the string ["Modifier <field> is nil"] for the first nil field in
    declaration order. *)
Theorem validate_same_record_or_panic_naming_field (a : attributeCustomModifiers) :
  (Forall (fun f => ¬ is_nil f) (fields a) → validate a = Returns a) ∧
  (panics (validate a) ↔ Exists is_nil (fields a)) ∧
  (∀ v, validate a = Panics v →
     ∃ pre name post,
       fields a = pre ++ (name, None) :: post ∧
       Forall (fun f => ¬ is_nil f) pre ∧
       v = PanicString ("Modifier " +:+ name +:+ " is nil")) ∧
  (∀ b, validate a = Returns b → b = a).
Proof.
  split_and!.
  - apply validate_returns.
  - apply validate_panics_iff_nil.
  - intros v Hv. by apply validate_loop_panics, validate_panics.
  - intros b Hb. unfold validate in Hb.
    destruct (validate_loop _); by simplify_eq/=.
Qed.

(** ** The documentation-link annotator *)

Section doc_properties.
Variables (World URL error : Type).
Variable url_Parse : string → URL + error.
Variable URL_String : URL → string.
Variable http_Get : World → string → (option http.Response * option error) * World.

Local Abbreviation doc := (cfg.doc World URL error url_Parse URL_String http_Get).

Lemma doc_malformed description u_ w err :
  url_Parse u_ = inr err →
  doc description u_ w =
    (match slice description 0 30 with
     | Returns d => Panics (PanicString ((d +:+ "...") +:+ ": invalid URL"))
     | Panics v => Panics v
     end, w).
Proof.
  intros Hp. unfold cfg.doc. rewrite Hp.
  unfold mbind, cfg.M_bind, cfg.lift, cfg.panic; simpl.
  by destruct (slice description 0 30).
Qed.

Lemma doc_parsed description u_ w u :
  url_Parse u_ = inl u →
  (doc description u_ w).1 =
    match (http_Get w (URL_String u)).1 with
    | (Some resp, None) =>
        if bool_decide (http.StatusCode resp ≠ http.StatusOK)
        then Panics (PanicError ("Failed to fetch url " +:+ URL_String u
               +:+ " (statusCode=" +:+ pretty (http.StatusCode resp) +:+ ")"))
        else Returns (description +:+ nl +:+ nl +:+ "See: " +:+ URL_String u)
    | (Some resp, Some _) =>
        Panics (PanicError ("Failed to fetch url " +:+ URL_String u
               +:+ " (statusCode=" +:+ pretty (http.StatusCode resp) +:+ ")"))
    | (None, _) => Panics (PanicRuntime nil_pointer_dereference)
    end.
Proof.
  intros Hp. unfold cfg.doc. rewrite Hp.
  unfold mbind, cfg.M_bind, cfg.Get, cfg.lift, cfg.panic, mret, cfg.M_ret; simpl.
  destruct (http_Get w (URL_String u)) as [[[resp|] [e|]] w']; simpl; try done.
  by destruct (bool_decide (http.StatusCode resp ≠ http.StatusOK)).
Qed.

(** C2: when the URL parses and the fetch answers 200 without an error, [doc]
    returns the description, a blank line, and ["See: "] followed by the parsed
    URL written back as a string ([u.String()]); and [doc] panics exactly when
    the URL does not parse, or the fetch returns an error, or the fetch does
    not answer with status 200.  A run-time panic counts as a panic here. *)
Theorem doc_appends_footer_or_panics (description u_ : string) (w : World) :
  (∀ u, url_Parse u_ = inl u → fetched_ok URL_String http_Get w u →
     (doc description u_ w).1 =
       Returns (description +:+ nl +:+ nl +:+ "See: " +:+ URL_String u)) ∧
  (panics (doc description u_ w).1 ↔
     (∃ err, url_Parse u_ = inr err) ∨
     (∃ u, url_Parse u_ = inl u ∧
        ((http_Get w (URL_String u)).1.2 ≠ None ∨
         ¬ ∃ resp, (http_Get w (URL_String u)).1.1 = Some resp ∧
                   http.StatusCode resp = http.StatusOK))).
Proof.
  split.
  - intros u Hp (resp & Hget & Hcode). rewrite (doc_parsed _ _ _ _ Hp), Hget.
    rewrite bool_decide_eq_false_2; [done|]. intros Hne. by apply Hne.
  - destruct (url_Parse u_) as [u|err] eqn:Hp.
    + rewrite (doc_parsed _ _ _ _ Hp).
      destruct (http_Get w (URL_String u)) as [[[resp|] [e|]] w'] eqn:Hget; cbn.
      * split; [|by eexists]. intros _. right. exists u. rewrite Hget.
        split; [done|]. by left.
      * case_bool_decide as Hcode; split.
        -- intros _. right. exists u. rewrite Hget. split; [done|]. right.
           intros (r & [= <-] & ?). done.
        -- by eexists.
        -- intros [? [=]].
        -- intros [[? [=]]|(u' & [= <-] & Hfail)]; rewrite Hget in Hfail.
           destruct Hfail as [Herr|Hno]; [done|].
           destruct Hno. exists resp. split; [done|].
           destruct (decide (http.StatusCode resp = http.StatusOK)); [done|].
           by destruct Hcode.
      * split; [|by eexists]. intros _. right. exists u. rewrite Hget.
        split; [done|]. by left.
      * split; [|by eexists]. intros _. right. exists u. rewrite Hget.
        split; [done|]. right. by intros (r & [=] & _).
    + rewrite (doc_malformed _ _ _ _ Hp). simpl. split.
      * intros _. left. by eexists.
      * intros _. destruct (slice description 0 30); by eexists.
Qed.

(** C10, what the code does instead: with a URL that does not parse and a
    description shorter than 30 bytes, [doc] stops at [description[0:30]] with
    a slice-bounds run-time error; and when the fetch returns an error and no
    response, it stops at [resp.StatusCode] with a nil dereference.  Neither
    is one of the two explicit panics. *)
Theorem doc_faults_before_its_explicit_panics (description u_ : string) (w : World) :
  (∀ err, url_Parse u_ = inr err → (String.length description < 30)%nat →
     (doc description u_ w).1 =
       Panics (PanicRuntime (slice_bounds_out_of_range 30 (String.length description)))) ∧
  (∀ u err w', url_Parse u_ = inl u →
     http_Get w (URL_String u) = ((None, Some err), w') →
     (doc description u_ w).1 = Panics (PanicRuntime nil_pointer_dereference)) ∧
  (∀ v, (doc description u_ w).1 = Panics v → ¬ explicit v →
     ((∃ err, url_Parse u_ = inr err) ∧ (String.length description < 30)%nat) ∨
     (∃ u, url_Parse u_ = inl u ∧ (http_Get w (URL_String u)).1.1 = None)).
Proof.
  split_and!.
  - intros err Hp Hlen. rewrite (doc_malformed _ _ _ _ Hp). simpl.
    unfold slice. rewrite decide_False by lia. done.
  - intros u err w' Hp Hget. by rewrite (doc_parsed _ _ _ _ Hp), Hget.
  - intros v Hv Hexp. destruct (url_Parse u_) as [u|err] eqn:Hp.
    + right. exists u. split; [done|]. rewrite (doc_parsed _ _ _ _ Hp) in Hv.
      destruct (http_Get w (URL_String u)) as [[[resp|] [e|]] w']; simpl in *;
        try done; try case_bool_decide; simplify_eq; try done;
        try by destruct Hexp.
    + left. split; [by eexists|]. rewrite (doc_malformed _ _ _ _ Hp) in Hv.
      simpl in Hv. unfold slice in Hv. case_decide; simplify_eq/=; try lia;
        try by destruct Hexp.
Qed.

End doc_properties.

(** ** The registry and the catalog *)

Lemma datastarModifiers_validated :
  datastarModifiers_init = Returns datastarModifiers_literal.
Proof. reflexivity. Qed.

Ltac each_field tac :=
  unfold fields;
  repeat (apply Forall_cons; split; [tac|]); by apply Forall_nil.

Lemma registry_described :
  Forall (fun f => ∃ m, f.2 = Some m ∧ described m ∧
                        (Attribute_Custom_Modifier.Suffix m = "" ↔ ¬ timed m))
         (fields datastarModifiers_literal).
Proof.
  each_field ltac:(
    eexists; split; [reflexivity|]; split; [by repeat split|];
    split;
    [ first [ discriminate
            | intros _ (t & [= <-] & [?|?]); discriminate ]
    | first [ reflexivity
            | intros Hno; destruct Hno; eexists; split; [reflexivity|];
              first [by left | by right] ] ]).
Qed.

(** C4, the claim as stated fails: the registry of the source passes
    [validate], so that package initialisation goes on, although the [Suffix]
    of [Capture] is empty. *)
Lemma registry_valid_with_empty_suffix :
  validate datastarModifiers_literal = Returns datastarModifiers_literal ∧
  ∃ m, Capture datastarModifiers_literal = Some m ∧
       Attribute_Custom_Modifier.Suffix m = "" ∧ ¬ complete m.
Proof.
  split; [reflexivity|]. eexists. split; [reflexivity|]. split; [reflexivity|].
  intros (_ & _ & _ & _ & Hs). by apply Hs.
Qed.

(** C4, amended: what is checked before the catalog is built is that every
    pointer field of the registry is non-nil, and a nil field is the only thing
    [validate] panics on; the registry of the source passes.  In that registry
    every modifier has a non-empty [Name], [Description] and [Prefix] and a set
    [Type], and its [Suffix] is empty exactly when its value kind takes no
    unit (bool and string). *)
Theorem registry_pointers_checked_fields_described :
  validate datastarModifiers_literal = Returns datastarModifiers_literal ∧
  (∀ a, panics (validate a) ↔ Exists is_nil (fields a)) ∧
  (∀ a, Forall (fun f => ¬ is_nil f) (fields a) → validate a = Returns a) ∧
  Forall (fun f => ∃ m, f.2 = Some m ∧ described m ∧
                        (Attribute_Custom_Modifier.Suffix m = "" ↔ ¬ timed m))
         (fields datastarModifiers_literal).
Proof.
  split_and!.
  - reflexivity.
  - apply validate_panics_iff_nil.
  - intros a. apply validate_returns.
  - apply registry_described.
Qed.

Lemma catalog_modifiers_usable :
  Forall (fun a => ∀ t, Attribute.Type_ a = Some t → Forall usable (at_modifiers t))
         tests.catalog.
Proof.
  unfold tests.catalog, cfg.DatastarExtensions_literal.
  repeat (apply Forall_cons; split;
          [ intros t [= <-]; simpl;
            repeat (apply Forall_cons; split;
                    [eexists; split; [reflexivity|]; split; discriminate|]);
            by apply Forall_nil
          |]).
  by apply Forall_nil.
Qed.

Section catalog_properties.
Variables (World URL error : Type).
Variable url_Parse : string → URL + error.
Variable URL_String : URL → string.
Variable http_Get : World → string → (option http.Response * option error) * World.

Local Abbreviation doc := (cfg.doc World URL error url_Parse URL_String http_Get).
Local Abbreviation elements := (cfg.elements World).
Local Abbreviation init := (cfg.init World URL error url_Parse URL_String http_Get).

Lemma elements_skeleton l w c w' :
  elements l w = (Returns c, w') → map skeleton c = map skeleton l.
Proof.
  revert w c w'. induction l as [|a l IH]; intros w c w'.
  - cbv [cfg.elements mret cfg.M_ret]. by intros [= <- _].
  - simpl. unfold mbind, cfg.M_bind, cfg.element, mret, cfg.M_ret.
    unfold mbind, cfg.M_bind.
    destruct (Attribute.Description a w) as [[d|v] w1]; [|done].
    destruct (elements l w1) as [[xs|v] w2] eqn:Hl; [|done].
    intros [= <- _]. simpl. by rewrite (IH _ _ _ Hl).
Qed.

(** The catalog that package initialisation builds has, entry by entry, the
    [Name], [Key] and [Type] written in the literal, over the registry of the
    source. *)
Lemma init_skeleton w m c w' :
  init w = (Returns (m, c), w') →
  m = datastarModifiers_literal ∧ map skeleton c = map skeleton tests.catalog.
Proof.
  unfold cfg.init, cfg.DatastarExtensions, cfg.lift.
  unfold mbind at 1, cfg.M_bind at 1. rewrite datastarModifiers_validated.
  unfold mbind, cfg.M_bind, mret, cfg.M_ret.
  destruct (cfg.elements _ _ _) as [[xs|v] w2] eqn:Hl; [|done].
  intros [= <- <- _]. split; [done|].
  by rewrite (elements_skeleton _ _ _ _ Hl).
Qed.

(** C5: in the catalog that package initialisation builds, every modifier an
    attribute definition refers to is a non-nil descriptor whose [Prefix] is not
    empty and whose [Type] is set. *)
Theorem referenced_modifiers_have_prefix_and_type w m c w' :
  init w = (Returns (m, c), w') →
  ∀ a t p, a ∈ c → Attribute.Type_ a = Some t → p ∈ at_modifiers t → usable p.
Proof.
  intros Hinit a t p Ha Ht Hp.
  apply init_skeleton in Hinit as [_ Hsk].
  assert (skeleton a ∈ map skeleton tests.catalog) as Hin.
  { rewrite <- Hsk. by apply list_elem_of_fmap_2. }
  apply list_elem_of_fmap in Hin as (b & Hab & Hb).
  pose proof catalog_modifiers_usable as Hall.
  rewrite Forall_forall in Hall. specialize (Hall b Hb t).
  assert (Attribute.Type_ b = Some t) as Hbt.
  { unfold skeleton in Hab. injection Hab as _ _ Hty. congruence. }
  specialize (Hall Hbt). rewrite Forall_forall in Hall. by apply Hall.
Qed.

End catalog_properties.

Lemma referenced_modifiers_have_prefix_and_type_witness :
  usable (Case datastarModifiers_literal).
Proof.
  eapply (referenced_modifiers_have_prefix_and_type nat string string
            scenario.url_Parse scenario.URL_String scenario.reachable 0).
  - vm_compute. reflexivity.
  - apply list_elem_of_further, list_elem_of_further, list_elem_of_here.
  - reflexivity.
  - apply list_elem_of_here.
Defined.

(** ** The generated builders and the renderer *)

Import elements.

Lemma append_assoc (s1 s2 s3 : string) : (s1 +:+ s2) +:+ s3 = s1 +:+ s2 +:+ s3.
Proof.
  induction s1 as [|c s1 IH]; [done|].
  change (String c ((s1 +:+ s2) +:+ s3) = String c (s1 +:+ s2 +:+ s3)).
  by rewrite IH.
Qed.

Lemma token_shape m x t :
  token m x = Some t →
  ∃ ty v, Attribute_Custom_Modifier.Type_ m = Some ty ∧ value (mt_base ty) x = Some v ∧
          t = "__" +:+ Attribute_Custom_Modifier.Prefix m +:+ v
              +:+ Attribute_Custom_Modifier.Suffix m.
Proof.
  unfold token. destruct (Attribute_Custom_Modifier.Type_ m) as [ty|]; [|done].
  simpl. destruct (value (mt_base ty) x) as [v|] eqn:Hv; [|done]. simpl.
  intros [= <-]. by exists ty, v.
Qed.

(** C6: a modifier whose value kind is a duration in milliseconds and whose
    [Suffix] is ["ms.leading"], applied to 500 milliseconds, renders as [__],
    its [Prefix], the number 500 and ["ms.leading"]; for [DebounceMsLeading],
    whose [Prefix] is ["debounce."], that is [__debounce.500ms.leading] (the
    <prefix> of the written pattern is the [Prefix] field without its final
    dot). *)
Theorem duration_ms_leading_token (m : Modifier) (ty : Attribute_Type_Modifier) :
  Attribute_Custom_Modifier.Type_ m = Some ty →
  mt_base ty = AttributeTypeDurationMs →
  Attribute_Custom_Modifier.Suffix m = "ms.leading" →
  token m (Dur (500 * time.Millisecond)%Z) =
    Some ("__" +:+ Attribute_Custom_Modifier.Prefix m +:+ "500" +:+ "ms.leading").
Proof.
  intros Hty Hbase Hsuf. unfold token. rewrite Hty. simpl. rewrite Hbase, Hsuf.
  simpl. replace (pretty (time.Milliseconds (500 * time.Millisecond)%Z)) with "500"
    by (by vm_compute).
  done.
Qed.

Lemma duration_ms_leading_token_witness :
  ∃ m, DebounceMsLeading datastarModifiers_literal = Some m ∧
       token m (Dur (500 * time.Millisecond)%Z) = Some "__debounce.500ms.leading".
Proof.
  eexists. split; [reflexivity|].
  eapply duration_ms_leading_token; reflexivity.
Defined.

Lemma render_single tag name (x : attribute) :
  render {| Tag := tag; Attributes := <[name := x]> ∅ |} =
    "<" +:+ tag +:+ " " +:+ render_attribute name x +:+ "></" +:+ tag +:+ ">".
Proof.
  unfold render. simpl. rewrite insert_empty, map_to_list_singleton.
  unfold render_attributes. simpl. by rewrite append_assoc.
Qed.

Lemma render_attribute_tokens name ts expr :
  render_attribute name {| tokens := ts; expression := Some expr |} =
    name +:+ String.concat "" ts +:+ "=" +:+ dq +:+ expr +:+ dq.
Proof. done. Qed.

Lemma Set_new {D} (a : Attribute.t D) tag subkey expr mods ts :
  fits a subkey expr = true →
  resolve a mods = Some ts →
  render <$> Set_ a subkey expr mods (new tag) =
    Some ("<" +:+ tag +:+ " " +:+
          render_attribute (wire_name (Attribute.Key a) subkey)
            {| tokens := ts; expression := expr |} +:+ "></" +:+ tag +:+ ">").
Proof.
  intros Hfits Hres. unfold Set_. rewrite Hfits, Hres. simpl.
  by rewrite render_single.
Qed.

(** C7: a builder called with the single modifier case=kebab renders
    [data-<key>[:<subkey>]__case.kebab="<expr>"] (that is
    [data-<key>__case.kebab="<expr>"] without a sub-key); called with two
    modifiers it renders their two tokens in the order given, each introduced
    by [__]. *)
Theorem modifiers_render_in_given_order {D} (a : Attribute.t D)
    (tag subkey expr : string) :
  fits a subkey (Some expr) = true →
  (permitted a "Case" = Case datastarModifiers_literal →
   render <$> Set_ a subkey (Some expr) [("Case", Str "kebab")] (new tag) =
     Some ("<" +:+ tag +:+ " " +:+ wire_name (Attribute.Key a) subkey +:+
           "__case.kebab" +:+ "=" +:+ dq +:+ expr +:+ dq +:+ "></" +:+ tag +:+ ">")) ∧
  (∀ n1 x1 n2 x2 m1 m2 t1 t2,
     permitted a n1 = Some m1 → token m1 x1 = Some t1 →
     permitted a n2 = Some m2 → token m2 x2 = Some t2 →
     render <$> Set_ a subkey (Some expr) [(n1, x1); (n2, x2)] (new tag) =
       Some ("<" +:+ tag +:+ " " +:+ wire_name (Attribute.Key a) subkey +:+
             t1 +:+ t2 +:+ "=" +:+ dq +:+ expr +:+ dq +:+ "></" +:+ tag +:+ ">") ∧
     ∃ v1 v2,
       t1 = "__" +:+ Attribute_Custom_Modifier.Prefix m1 +:+ v1
            +:+ Attribute_Custom_Modifier.Suffix m1 ∧
       t2 = "__" +:+ Attribute_Custom_Modifier.Prefix m2 +:+ v2
            +:+ Attribute_Custom_Modifier.Suffix m2).
Proof.
  intros Hfits. split.
  - intros Hcase.
    rewrite (Set_new a tag subkey (Some expr) _ ["__case.kebab"] Hfits).
    + rewrite render_attribute_tokens. simpl String.concat.
      by rewrite !append_assoc.
    + simpl. by rewrite Hcase.
  - intros n1 x1 n2 x2 m1 m2 t1 t2 Hm1 Ht1 Hm2 Ht2. split.
    + rewrite (Set_new a tag subkey (Some expr) _ [t1; t2] Hfits).
      * rewrite render_attribute_tokens. simpl String.concat.
        by rewrite !append_assoc.
      * simpl. rewrite Hm1. simpl. rewrite Ht1. simpl. rewrite Hm2. simpl.
        by rewrite Ht2.
    + apply token_shape in Ht1 as (? & v1 & _ & _ & ->).
      apply token_shape in Ht2 as (? & v2 & _ & _ & ->). by exists v1, v2.
Qed.

Lemma modifiers_render_in_given_order_witness :
  ∃ a, tests.entry "DatastarOn" = Some a ∧
    render <$> Set_ a "click" (Some "$foo = ''") [("Case", Str "kebab")] (new "button") =
      Some ("<button data-on:click__case.kebab=" +:+ dq +:+ "$foo = ''" +:+ dq
            +:+ "></button>") ∧
    render <$> Set_ a "click" (Some "$foo = ''")
                 [("Window", NoArg); ("DebounceSecNoTrailing", Dur (1 * time.Second)%Z)]
                 (new "button") =
      Some ("<button data-on:click__window__debounce.1s.notrailing=" +:+ dq
            +:+ "$foo = ''" +:+ dq +:+ "></button>").
Proof.
  eexists. split; [reflexivity|].
  match goal with
  | |- context [Set_ ?a _ _ _ _] =>
      pose proof (modifiers_render_in_given_order a "button" "click" "$foo = ''"
                    eq_refl) as [Hone Htwo]
  end.
  split.
  - exact (Hone eq_refl).
  - edestruct (Htwo "Window" NoArg "DebounceSecNoTrailing" (Dur (1 * time.Second)%Z))
      as [Hrender _]; [reflexivity..|].
    exact Hrender.
Defined.

(** C8: once an attribute has been set, its [...Remove] form (and, for a bool
    attribute, [...Set(false)]) leaves an element that holds no attribute of
    that name: it is the element that the same form gives when the attribute
    was never set, and when the element did not hold the attribute before the
    call, it is that very element and renders as it. *)
Theorem remove_after_set_leaves_no_attribute {D} (a : Attribute.t D)
    (subkey : string) (expr : option string) (mods : list (string * arg))
    (e e' : Element) :
  Set_ a subkey expr mods e = Some e' →
  Attributes (Remove a subkey e') !! wire_name (Attribute.Key a) subkey = None ∧
  Remove a subkey e' = Remove a subkey e ∧
  (Attributes e !! wire_name (Attribute.Key a) subkey = None →
     Remove a subkey e' = e ∧ render (Remove a subkey e') = render e) ∧
  (subkey = "" → SetBool a false e' = Some (Remove a subkey e)).
Proof.
  unfold Set_. destruct (fits a subkey expr); [|done].
  destruct (resolve a mods) as [ts|]; [|done]. simpl. intros [= <-].
  assert (Remove a subkey
            {| Tag := Tag e;
               Attributes := <[wire_name (Attribute.Key a) subkey :=
                                {| tokens := ts; expression := expr |}]> (Attributes e) |}
          = Remove a subkey e) as Heq.
  { unfold Remove. simpl. by rewrite delete_insert_eq. }
  split_and!.
  - unfold Remove. simpl. apply lookup_delete_eq.
  - done.
  - intros Hfresh. rewrite Heq. unfold Remove. rewrite delete_id by done.
    by destruct e.
  - intros ->. unfold SetBool. by rewrite Heq.
Qed.

Lemma remove_after_set_leaves_no_attribute_witness :
  ∃ a e', tests.entry "DatastarAttr" = Some a ∧
    Set_ a "title" (Some "$foo") [] (new "div") = Some e' ∧
    render (Remove a "title" e') = "<div></div>".
Proof.
  eexists _, _. split; [reflexivity|]. split; [reflexivity|].
  match goal with
  | |- render (Remove ?a _ ?e') = _ =>
      destruct (remove_after_set_leaves_no_attribute a "title" (Some "$foo") []
                  (new "div") e' eq_refl) as (_ & _ & Hfresh & _)
  end.
  destruct (Hfresh eq_refl) as [_ ->]. reflexivity.
Defined.



(** ** The catalog against the tests *)

(** Every test function but [TestDatastarClass] and [TestDatastarStyle] passes
    when the wire name of an attribute is [data-] followed by the [Key] of its
    catalog entry. *)
Lemma tests_pass_with_key_as_wire_name :
  Forall (fun results => (tests.run [] results []).1 = [])
    [ tests.TestDatastarAttr; tests.TestDatastarBind; tests.TestDatastarComputed;
      tests.TestDatastarEffect; tests.TestDatastarIgnore;
      tests.TestDatastarIgnoreMorph; tests.TestDatastarIndicator;
      tests.TestDatastarInit; tests.TestDatastarJsonSignals; tests.TestDatastarOn;
      tests.TestDatastarOnIntersect; tests.TestDataOnInterval;
      tests.TestDatastarOnSignalPatch; tests.TestDatastarOnSignalPatchFilter;
      tests.TestDatastarPreserveAttr; tests.TestDatastarRef;
      tests.TestDatastarShow; tests.TestDatastaSignals; tests.TestDatastarText ].
Proof. repeat (apply Forall_cons; split; [by vm_compute|]). by apply Forall_nil. Qed.


(** ** [doc] on the concrete networks *)

Example doc_reachable :
  scenario.doc scenario.reachable "Binds the text content of an element to an expression."
    "https://data-star.dev/reference/attributes#data-text" 0 =
  (Returns ("Binds the text content of an element to an expression." +:+ nl +:+ nl
            +:+ "See: https://data-star.dev/reference/attributes#data-text"), 1).
Proof. by vm_compute. Qed.

Example doc_not_found :
  scenario.doc scenario.not_found "Binds the text content of an element to an expression."
    "https://data-star.dev/reference/attributes#data-text" 0 =
  (Panics (PanicError "Failed to fetch url https://data-star.dev/reference/attributes#data-text (statusCode=404)"), 1).
Proof. by vm_compute. Qed.

Example doc_unreachable :
  scenario.doc scenario.unreachable "Binds the text content of an element to an expression."
    "https://data-star.dev/reference/attributes#data-text" 0 =
  (Panics (PanicRuntime nil_pointer_dereference), 1).
Proof. by vm_compute. Qed.

Example doc_malformed_long_description :
  scenario.doc scenario.reachable "Binds the text content of an element to an expression."
    ":" 0 =
  (Panics (PanicString "Binds the text content of an e...: invalid URL"), 0).
Proof. by vm_compute. Qed.

Example doc_malformed_short_description :
  scenario.doc scenario.reachable "Shows an element." ":" 0 =
  (Panics (PanicRuntime (slice_bounds_out_of_range 30 17)), 0).
Proof. by vm_compute. Qed.

(** On a network that answers every fetch with 200, package initialisation
    returns after the 19 fetches of the catalog; on one that cannot be reached
    it stops at the first fetch. *)
Example init_reachable :
  ∃ c, scenario.init scenario.reachable 0 = (Returns (datastarModifiers_literal, c), 19)
       ∧ length c = 21.
Proof. eexists. split; by vm_compute. Qed.

Example init_unreachable :
  scenario.init scenario.unreachable 0 = (Panics (PanicRuntime nil_pointer_dereference), 1).
Proof. by vm_compute. Qed.

(** * Further properties of the code *)

(** ** [doc]: its use of the network and its explicit panics *)

Section doc_effects.
Variables (World URL error : Type).
Variable url_Parse : string → URL + error.
Variable URL_String : URL → string.
Variable http_Get : World → string → (option http.Response * option error) * World.

Local Abbreviation doc := (cfg.doc World URL error url_Parse URL_String http_Get).
Local Abbreviation parsed := (doc_parsed World URL error url_Parse URL_String http_Get).
Local Abbreviation malformed :=
  (doc_malformed World URL error url_Parse URL_String http_Get).

Lemma doc_world description u_ w :
  (doc description u_ w).2 =
    match url_Parse u_ with
    | inl u => (http_Get w (URL_String u)).2
    | inr _ => w
    end.
Proof.
  destruct (url_Parse u_) as [u|err] eqn:Hp.
  - unfold cfg.doc. rewrite Hp.
    unfold mbind, cfg.M_bind, cfg.Get, cfg.lift, cfg.panic, mret, cfg.M_ret; simpl.
    destruct (http_Get w (URL_String u)) as [[[resp|] [e|]] w']; simpl; try done.
    by destruct (bool_decide (http.StatusCode resp ≠ http.StatusOK)).
  - by rewrite (malformed _ _ _ _ Hp).
Qed.

(** X1: [doc] touches the network only after the URL has parsed: a URL that
    does not parse leaves the world as it was, and a URL that parses costs
    exactly the one fetch of [u.String()], whatever that fetch answers and
    whether [doc] then returns or panics. *)
Theorem doc_fetches_once_and_only_after_parsing (description u_ : string) (w : World) :
  (∀ err, url_Parse u_ = inr err → (doc description u_ w).2 = w) ∧
  (∀ u, url_Parse u_ = inl u →
     (doc description u_ w).2 = (http_Get w (URL_String u)).2).
Proof.
  split; intros x Hp; by rewrite doc_world, Hp.
Qed.

(** X2: the two explicit panics of [doc], each with the exact condition under
    which it is the outcome.  [panic(desc + ": invalid URL")] happens exactly
    when the URL does not parse and the description has at least 30 bytes, and
    carries the first 30 bytes of the description; [panic(err)] happens exactly
    when the URL parses, a response came back, and the fetch erred or the
    status is not 200, and its message is built from the URL and the status
    code of the response alone: the error returned by the fetch is not part of
    it. *)
Theorem doc_explicit_panics (description u_ : string) (w : World) :
  (∀ msg, (doc description u_ w).1 = Panics (PanicString msg) ↔
     (∃ err, url_Parse u_ = inr err) ∧
     (30 ≤ String.length description)%nat ∧
     msg = (String.substring 0 30 description +:+ "...") +:+ ": invalid URL") ∧
  (∀ msg, (doc description u_ w).1 = Panics (PanicError msg) ↔
     ∃ u resp, url_Parse u_ = inl u ∧
       (http_Get w (URL_String u)).1.1 = Some resp ∧
       ((http_Get w (URL_String u)).1.2 ≠ None ∨
        http.StatusCode resp ≠ http.StatusOK) ∧
       msg = "Failed to fetch url " +:+ URL_String u +:+ " (statusCode="
             +:+ pretty (http.StatusCode resp) +:+ ")").
Proof.
  split; intros msg.
  - destruct (url_Parse u_) as [u|err] eqn:Hp.
    + rewrite (parsed _ _ _ _ Hp). split.
      * destruct (http_Get w (URL_String u)) as [[[resp|] [e|]] w']; simpl;
          try case_bool_decide; done.
      * by intros [[? [=]] _].
    + rewrite (malformed _ _ _ _ Hp). simpl. unfold slice.
      case_decide as Hlen; simpl; split.
      * intros [= <-]. split; [by eexists|]. split; [lia|done].
      * by intros (_ & _ & ->).
      * done.
      * intros (_ & ? & _). lia.
  - destruct (url_Parse u_) as [u|err] eqn:Hp.
    + rewrite (parsed _ _ _ _ Hp).
      destruct (http_Get w (URL_String u)) as [[[resp|] [e|]] w'] eqn:Hget; simpl.
      * split.
        -- intros [= <-]. exists u, resp. rewrite Hget. simpl.
           split_and!; [done..| | done]. by left.
        -- intros (u' & resp' & [= <-] & Hresp & _ & ->). rewrite Hget in Hresp.
           by simplify_eq/=.
      * case_bool_decide as Hcode; split.
        -- intros [= <-]. exists u, resp. rewrite Hget. simpl.
           split_and!; [done..| | done]. by right.
        -- intros (u' & resp' & [= <-] & Hresp & _ & ->). rewrite Hget in Hresp.
           by simplify_eq/=.
        -- done.
        -- intros (u' & resp' & [= <-] & Hresp & Hfail & _).
           rewrite Hget in Hresp, Hfail. simplify_eq/=.
           destruct Hfail as [?|Hne]; [done|]. destruct Hcode. done.
      * split; [done|]. intros (u' & resp' & [= <-] & Hresp & _).
        rewrite Hget in Hresp. done.
      * split; [done|]. intros (u' & resp' & [= <-] & Hresp & _).
        rewrite Hget in Hresp. done.
    + rewrite (malformed _ _ _ _ Hp). simpl. split.
      * unfold slice. by case_decide.
      * by intros (? & ? & [=] & _).
Qed.

End doc_effects.

(** ** Package initialisation: what it stores, how it can fail, what it fetches *)


Section init_properties.
Variables (World URL error : Type).
Variable url_Parse : string → URL + error.
Variable URL_String : URL → string.
Variable http_Get : World → string → (option http.Response * option error) * World.

Local Abbreviation doc := (cfg.doc World URL error url_Parse URL_String http_Get).
Local Abbreviation elements := (cfg.elements World).
Local Abbreviation init := (cfg.init World URL error url_Parse URL_String http_Get).
Local Abbreviation denote :=
  (source.denote World URL error url_Parse URL_String http_Get).
Local Abbreviation parsed := (doc_parsed World URL error url_Parse URL_String http_Get).
Local Abbreviation malformed :=
  (doc_malformed World URL error url_Parse URL_String http_Get).

Lemma literal_denote m :
  cfg.DatastarExtensions_literal doc (fun s w => (Returns s, w)) m =
    map (source.retag denote) (source.entries m).
Proof. reflexivity. Qed.

Lemma elements_cons a l w :
  elements (a :: l) w =
    match Attribute.Description a w with
    | (Returns d, w1) =>
        match elements l w1 with
        | (Returns xs, w2) =>
            (Returns ({| Attribute.Name := Attribute.Name a;
                         Attribute.Key := Attribute.Key a;
                         Attribute.Description := d;
                         Attribute.Type_ := Attribute.Type_ a |} :: xs), w2)
        | (Panics v, w2) => (Panics v, w2)
        end
    | (Panics v, w1) => (Panics v, w1)
    end.
Proof.
  simpl. unfold mbind, cfg.M_bind, cfg.element, mret, cfg.M_ret.
  unfold mbind, cfg.M_bind.
  destruct (Attribute.Description a w) as [[d|v] w1]; [|done].
  by destruct (elements l w1) as [[xs|v] w2].
Qed.

Lemma init_unfold w :
  init w =
    match elements (map (source.retag denote)
                      (source.entries datastarModifiers_literal)) w with
    | (Returns c, w') => (Returns (datastarModifiers_literal, c), w')
    | (Panics v, w') => (Panics v, w')
    end.
Proof.
  unfold cfg.init, cfg.DatastarExtensions, cfg.lift.
  unfold mbind at 1, cfg.M_bind at 1. rewrite datastarModifiers_validated.
  unfold mbind, cfg.M_bind, mret, cfg.M_ret.
  change (cfg.DatastarExtensions_literal _ _ datastarModifiers_literal)
    with (map (source.retag denote) (source.entries datastarModifiers_literal)).
  by destruct (elements _ w) as [[c|v] w'].
Qed.

Lemma doc_returns text url w s :
  (doc text url w).1 = Returns s →
  ∃ u, url_Parse url = inl u ∧ s = text +:+ nl +:+ nl +:+ "See: " +:+ URL_String u.
Proof.
  destruct (url_Parse url) as [u|err] eqn:Hp.
  - rewrite (parsed _ _ _ _ Hp). intros Hs. exists u. split; [done|].
    destruct (http_Get w (URL_String u)) as [[[resp|] [e|]] w']; simpl in Hs;
      try case_bool_decide; by simplify_eq.
  - rewrite (malformed _ _ _ _ Hp). simpl. by destruct (slice text 0 30).
Qed.


Lemma elements_denote l w :
  match elements (map (source.retag denote) l) w with
  | (Returns c, _) => Forall2 (built_from url_Parse URL_String) l c
  | (Panics v, _) =>
      ∃ d w1, d ∈ source.docs l ∧ (doc d.1 d.2 w1).1 = Panics v
  end.
Proof.
  revert w. induction l as [|s l IH]; intros w.
  - change (Forall2 (built_from url_Parse URL_String) [] []). constructor.
  - simpl map. rewrite elements_cons.
    destruct s as [name key [text url|text] ty];
      cbn [source.retag Attribute.Description Attribute.Name Attribute.Key
           Attribute.Type_ source.denote].
    + destruct (doc text url w) as [[d|v] w1] eqn:Hdoc.
      * specialize (IH w1).
        destruct (elements (map (source.retag denote) l) w1) as [[c|v] w2].
        -- constructor; [|done]. unfold built_from. simpl. split_and!; [done..|].
           apply (doc_returns text url w). by rewrite Hdoc.
        -- destruct IH as (d' & w3 & Hin & Hv). exists d', w3. split; [|done].
           change (d' ∈ (text, url) :: source.docs l).
           by apply list_elem_of_further.
      * exists (text, url), w. split.
        -- change ((text, url) ∈ (text, url) :: source.docs l).
           apply list_elem_of_here.
        -- simpl. by rewrite Hdoc.
    + specialize (IH w).
      destruct (elements (map (source.retag denote) l) w) as [[c|v] w2].
      * constructor; [|done]. by unfold built_from.
      * done.
Qed.

(** X3: the catalog that package initialisation returns is the literal of the
    source entry by entry: [Name], [Key] and [Type] as written, and as
    [Description] either the plain string of the literal or, for an entry
    written with [doc], its text followed by a blank line and ["See: "] with
    the parsed link; in particular every link of a returned catalog did
    parse. *)
Theorem init_builds_the_literal w m c w' :
  init w = (Returns (m, c), w') →
  m = datastarModifiers_literal ∧
  Forall2 (built_from url_Parse URL_String) (source.entries datastarModifiers_literal) c.
Proof.
  rewrite init_unfold. pose proof (elements_denote
    (source.entries datastarModifiers_literal) w) as H.
  destruct (elements _ w) as [[c'|v] w2]; [|done]. by intros [= <- <- _].
Qed.


End init_properties.

Lemma init_builds_the_literal_witness :
  ∃ c, scenario.init scenario.reachable 0 = (Returns (datastarModifiers_literal, c), 19) ∧
       Forall2 (built_from scenario.url_Parse scenario.URL_String)
               (source.entries datastarModifiers_literal) c.
Proof.
  eexists. split; [vm_compute; reflexivity|].
  eapply (init_builds_the_literal nat string string scenario.url_Parse
            scenario.URL_String scenario.reachable 0).
  vm_compute. reflexivity.
Defined.


Section init_fetches.
Variables (World URL error : Type).
Variable url_Parse : string → URL + error.
Variable URL_String : URL → string.
Variable http_Get : World → string → (option http.Response * option error) * World.

Local Abbreviation get := (source.logged World error http_Get).
Local Abbreviation doc :=
  (cfg.doc (World * list string) URL error url_Parse URL_String get).
Local Abbreviation elements := (cfg.elements (World * list string)).
Local Abbreviation init :=
  (cfg.init (World * list string) URL error url_Parse URL_String get).
Local Abbreviation denote :=
  (source.denote (World * list string) URL error url_Parse URL_String get).
Local Abbreviation fetched := (source.fetched URL error url_Parse URL_String).

Lemma doc_log text url st :
  (doc text url st).2.2 = st.2 ++ option_list (fetched url) ∧
  (fetched url = None → ∃ v, (doc text url st).1 = Panics v).
Proof.
  rewrite doc_world. unfold source.fetched.
  destruct (url_Parse url) as [u|err] eqn:Hp.
  - split; [|done]. unfold source.logged.
    by destruct (http_Get st.1 (URL_String u)).
  - split; [by rewrite app_nil_r|]. intros _.
    rewrite (doc_malformed _ _ _ _ _ _ _ _ _ _ Hp). simpl.
    destruct (slice text 0 30); by eexists.
Qed.

Lemma elements_log l st :
  ∃ fs rest,
    (elements (map (source.retag denote) l) st).2.2 = st.2 ++ fs ∧
    omap fetched (source.docs l).*2 = fs ++ rest ∧
    (∀ c, (elements (map (source.retag denote) l) st).1 = Returns c →
       rest = [] ∧ length fs = length (source.docs l)).
Proof.
  revert st. induction l as [|s l IH]; intros st.
  - exists [], []. split_and!; [by rewrite app_nil_r|done|done].
  - simpl map. rewrite elements_cons.
    destruct s as [name key [text url|text] ty];
      cbn [source.retag Attribute.Description Attribute.Name Attribute.Key
           Attribute.Type_ source.denote].
    + change (source.docs ({| Attribute.Name := name; Attribute.Key := key;
                              Attribute.Description := source.Doc text url;
                              Attribute.Type_ := ty |} :: l))
        with ((text, url) :: source.docs l).
      rewrite fmap_cons. cbn [snd omap list_omap].
      destruct (doc_log text url st) as [Hlog Hnone].
      destruct (doc text url st) as [[d|v] st1] eqn:Hdoc; simpl in Hlog.
      * destruct (fetched url) as [f|] eqn:Hf;
          [|destruct (Hnone eq_refl) as [? [=]]].
        destruct (IH st1) as (fs & rest & Hfs & Hall & Hret).
        exists (f :: fs), rest.
        destruct (elements (map (source.retag denote) l) st1) as [[c|v] st2];
          simpl in *.
        -- split_and!.
           ++ by rewrite Hfs, Hlog, <- app_assoc.
           ++ by rewrite Hall.
           ++ intros ? _. destruct (Hret c eq_refl) as [-> ->]. done.
        -- split_and!; [by rewrite Hfs, Hlog, <- app_assoc|by rewrite Hall|done].
      * exists (option_list (fetched url)), (omap fetched (source.docs l).*2).
        simpl. split_and!; [done| |done]. by destruct (fetched url).
    + change (source.docs ({| Attribute.Name := name; Attribute.Key := key;
                              Attribute.Description := source.Plain text;
                              Attribute.Type_ := ty |} :: l))
        with (source.docs l).
      destruct (IH st) as (fs & rest & Hfs & Hall & Hret).
      exists fs, rest.
      destruct (elements (map (source.retag denote) l) st) as [[c|v] st2];
        simpl in *; split_and!; try done.
      intros ? _. by apply (Hret c).
Qed.

(** X5: on a network that logs every string handed to [http.Get], package
    initialisation fetches the documentation links of the catalog in source
    order, each at most once and as [u.String()] of the parsed link, and stops
    at the first link that fails: the log grows by an initial segment of the
    19 links, and by all 19 when initialisation returns.  The two entries
    written with a plain description are never fetched. *)
Theorem init_fetches_links_in_order (w : World) (log : list string) :
  ∃ fs rest,
    (init (w, log)).2.2 = log ++ fs ∧
    omap fetched source.links = fs ++ rest ∧
    (∀ mc, (init (w, log)).1 = Returns mc → rest = [] ∧ length fs = 19).
Proof.
  destruct (elements_log (source.entries datastarModifiers_literal) (w, log))
    as (fs & rest & Hfs & Hall & Hret).
  change ((w, log).2) with log in Hfs.
  exists fs, rest. rewrite init_unfold. split_and!.
  - rewrite <- Hfs. by destruct (elements _ (w, log)) as [[c|v] st2].
  - exact Hall.
  - intros mc Hmc.
    destruct (elements _ (w, log)) as [[c|v] st2]; [|done]. by apply (Hret c).
Qed.

End init_fetches.

(** ** The literal of the catalog and the registry as data *)

Ltac each tac := repeat (apply Forall_cons; split; [tac|]); by apply Forall_nil.
Ltac find_member :=
  solve [repeat first [apply list_elem_of_here | apply list_elem_of_further]].
Ltac find_entry tac :=
  repeat first [ apply Exists_cons_hd; solve [tac] | apply Exists_cons_tl ].

(** X6: no two entries of the catalog share a [Name], and no two share a
    [Key]: the builder methods generated from the names and the wire names
    built from the keys cannot collide.  The catalog has 21 entries. *)
Theorem catalog_names_and_keys_are_unique :
  NoDup (Attribute.Name <$> source.entries datastarModifiers_literal) ∧
  NoDup (Attribute.Key <$> source.entries datastarModifiers_literal) ∧
  length (source.entries datastarModifiers_literal) = 21.
Proof.
  split_and!; [compute_done..| done].
Qed.

(** X7: in the registry no two modifiers share a [Name], and no two share
    both [Prefix] and [Suffix], so that a rendered token tells which modifier
    it came from; the three fields spelled [ThrotlleSec...] hold modifiers
    named [ThrottleSec...].  The registry has 32 modifiers. *)
Theorem registry_modifiers_are_distinct :
  NoDup (Attribute_Custom_Modifier.Name <$> modifiers datastarModifiers_literal) ∧
  NoDup ((fun m => (Attribute_Custom_Modifier.Prefix m,
                    Attribute_Custom_Modifier.Suffix m))
           <$> modifiers datastarModifiers_literal) ∧
  length (modifiers datastarModifiers_literal) = 32 ∧
  Attribute_Custom_Modifier.Name <$> ThrotlleSec datastarModifiers_literal
    = Some "ThrottleSec" ∧
  Attribute_Custom_Modifier.Name <$> ThrotlleSecNoLeading datastarModifiers_literal
    = Some "ThrottleSecNoLeading" ∧
  Attribute_Custom_Modifier.Name <$> ThrotlleSecTrailing datastarModifiers_literal
    = Some "ThrottleSecTrailing".
Proof.
  split_and!; [compute_done | compute_done | done..].
Qed.

(** X8: every modifier of the registry has the shape its value kind calls
    for.  A flag has a [Prefix] without a dot and no [Suffix]; a modifier that
    takes a value has a [Prefix] ending in a dot; the [Suffix] of a string
    modifier is empty, that of a millisecond modifier is [ms] and that of a
    second modifier is [s], alone or followed by a dot and an edge name. *)
Theorem registry_modifiers_are_well_shaped :
  Forall well_shaped (modifiers datastarModifiers_literal).
Proof.
  unfold modifiers, fields. simpl.
  each ltac:(
    eexists; split; [reflexivity|]; simpl; split; [reflexivity|];
    first [ reflexivity
          | left; reflexivity
          | right; eexists; split; [|reflexivity]; discriminate ]).
Qed.

(** X9: the catalog and the registry use the same modifiers: every modifier
    pointer of a catalog entry is a field of the registry, and every field of
    the registry is permitted by at least one catalog entry. *)
Theorem catalog_uses_exactly_the_registry :
  Forall (fun a => ∀ t, Attribute.Type_ a = Some t →
            Forall (fun p => p ∈ (fields datastarModifiers_literal).*2) (at_modifiers t))
         (source.entries datastarModifiers_literal) ∧
  Forall (fun f => Exists (fun a => ∃ t, Attribute.Type_ a = Some t ∧
                                         f.2 ∈ at_modifiers t)
                     (source.entries datastarModifiers_literal))
         (fields datastarModifiers_literal).
Proof.
  split.
  - unfold source.entries, cfg.DatastarExtensions_literal.
    each ltac:(intros t [= <-]; simpl; each find_member).
  - unfold source.entries, cfg.DatastarExtensions_literal, fields.
    each ltac:(find_entry ltac:(eexists; split; [reflexivity|]; simpl; find_member)).
Qed.

(** X10: every entry written with [doc] links to the anchor [#data-<Key>] of
    the attribute reference, with two exceptions: [DatastarInit] links to the
    anchor of [data-indicator], and [DatastarStyle], whose key is
    [datastar-style], links to [#data-style].  [DatastarClass] and
    [DatastarOnIntersect] carry a plain description without any link. *)
Theorem documentation_links_follow_the_keys :
  Forall (fun a =>
    match Attribute.Description a with
    | source.Doc _ url =>
        url = "https://data-star.dev/reference/attributes#data-" +:+
              (if decide (Attribute.Name a = "DatastarInit") then "indicator"
               else if decide (Attribute.Name a = "DatastarStyle") then "style"
               else Attribute.Key a)
    | source.Plain _ =>
        Attribute.Name a = "DatastarClass" ∨ Attribute.Name a = "DatastarOnIntersect"
    end) (source.entries datastarModifiers_literal).
Proof.
  unfold source.entries, cfg.DatastarExtensions_literal.
  each ltac:(first [reflexivity | by left | by right]).
Qed.

(** ** The driver of the tests *)

Lemma rendered_clean e pool :
  bytebufferpool.clean pool →
  ∃ pool', tests.rendered e pool = (render e, None, pool') ∧
           bytebufferpool.clean pool'.
Proof.
  intros Hclean. unfold tests.rendered, bytebufferpool.Get, Render.
  destruct pool as [|b p]; simpl.
  - eexists. split; [done|]. by constructor.
  - inversion Hclean as [|? ? Hb Hrest]; subst. eexists. split; [done|].
    by constructor.
Qed.

Lemma run_step t r rest pool :
  bytebufferpool.clean pool →
  ∃ pool', tests.run t (r :: rest) pool = tests.run (t ++ failure r) rest pool' ∧
           bytebufferpool.clean pool'.
Proof.
  intros Hclean. simpl. unfold failure. destruct (tests.Actual r) as [el|].
  - destruct (rendered_clean el pool Hclean) as (pool' & -> & Hclean').
    exists pool'. split; [|done]. simpl. unfold tests.assert_Equal.
    case_decide; [by rewrite app_nil_r|done].
  - by exists pool.
Qed.

Lemma run_failures t rs pool :
  bytebufferpool.clean pool →
  (tests.run t rs pool).1 = t ++ failures rs ∧
  bytebufferpool.clean (tests.run t rs pool).2.
Proof.
  revert t pool. induction rs as [|r rs IH]; intros t pool Hclean.
  - simpl. by rewrite app_nil_r.
  - destruct (run_step t r rs pool Hclean) as (pool' & -> & Hclean').
    destruct (IH (t ++ failure r) pool' Hclean') as [-> ?].
    split; [|done]. unfold failures. simpl. by rewrite app_assoc.
Qed.

(** X11: started on a clean buffer pool, [run] records exactly the cases
    whose rendering differs from the expected string, in table order and after
    the failures recorded before, whatever buffers the pool holds; it hands
    back a clean pool; and it records nothing exactly when every case renders
    to its expected string. *)
Theorem run_records_exactly_the_failures (t : tests.T) (rs : list tests.result)
    (pool : bytebufferpool.Pool) :
  bytebufferpool.clean pool →
  (tests.run t rs pool).1 = t ++ failures rs ∧
  bytebufferpool.clean (tests.run t rs pool).2 ∧
  ((tests.run [] rs pool).1 = [] ↔
   Forall (fun r => ∃ e, tests.Actual r = Some e ∧ render e = tests.Expected r) rs).
Proof.
  intros Hclean. destruct (run_failures t rs pool Hclean) as [Hrun Hpool].
  split_and!; [done..|].
  destruct (run_failures [] rs pool Hclean) as [-> _]. simpl.
  clear. induction rs as [|r rs IH].
  - split; [by constructor|done].
  - unfold failures. simpl. fold (failures rs). split.
    + intros Hnil. apply app_eq_nil in Hnil as [Hr Hrs]. constructor.
      * unfold failure in Hr. destruct (tests.Actual r) as [e|]; [|done].
        case_decide; [|done]. by exists e.
      * by apply IH.
    + inversion 1 as [|? ? (e & He & Hrender) Hrest]; subst.
      rewrite (proj2 IH Hrest), app_nil_r. unfold failure. rewrite He.
      by rewrite decide_True.
Qed.

Lemma run_records_exactly_the_failures_witness :
  (tests.run [] tests.TestDatastarOn []).1 = [] ∧
  (tests.run [] tests.TestDatastarClass [ ""; "" ]).1 = failures tests.TestDatastarClass.
Proof.
  split.
  - destruct (run_records_exactly_the_failures [] tests.TestDatastarOn []
                (Forall_nil_2 _)) as (-> & _ & _).
    by vm_compute.
  - destruct (run_records_exactly_the_failures [] tests.TestDatastarClass [ ""; "" ])
      as (-> & _ & _); [by repeat constructor|done].
Defined.

(** X12: [run] on one table after another, handing on the recorded failures
    and the pool, is [run] on the two tables joined. *)
Theorem run_of_joined_tables (t : tests.T) (rs1 rs2 : list tests.result)
    (pool : bytebufferpool.Pool) :
  tests.run t (rs1 ++ rs2) pool =
    tests.run (tests.run t rs1 pool).1 rs2 (tests.run t rs1 pool).2.
Proof.
  revert t pool. induction rs1 as [|r rs1 IH]; intros t pool; [done|].
  simpl. destruct (tests.Actual r) as [el|]; [|apply IH].
  destruct (tests.rendered el pool) as [[a err] pool']. apply IH.
Qed.

(** X13: every chain of builder calls in the test table is one the catalog
    admits: each modifier function a test applies belongs to a modifier that
    the entry of the attribute permits, with an argument of the kind of that
    modifier's [Type], and a sub-key is given only to an entry that is
    customizable.  The table has 58 cases. *)
Theorem tests_use_only_what_the_catalog_permits :
  Forall (fun r => is_Some (tests.Actual r)) (concat tests.all_tests) ∧
  length (concat tests.all_tests) = 58.
Proof.
  split; [|done]. apply Forall_forall. intros r Hr.
  assert (bool_decide (is_Some (tests.Actual r))) as H; [|by apply bool_decide_unpack in H].
  revert r Hr. apply Forall_forall. unfold tests.all_tests. simpl concat.
  each ltac:(by vm_compute).
Qed.
